(** * database-webos: the SQL builders, the schema methods and the version
      methods of the [Database] class

    Two builds of the class are embedded side by side:
    - [Standalone]: javascripts/database-standalone.js (version 2.0.0, plain
      prototype class);
    - [Enyo]: the Enyo component [onecrayon.Database] (version 2.1.0).
    Both share the statement builders word for word.  They differ in the
    helpers they call: the array test ([_isArray] against [enyo.isArray]),
    the binding helper ([_bind] against [enyo.bind]), the variable read by the
    debug test in [queries], and what [_db_lost] does.

    Conventions of the embedding:
    - a JavaScript string is a [string]; each character stands for one code
      unit below 256;
    - an object used as a mapping (a row, a predicate) is the list of its
      (key, value) pairs in the order [for (key in obj)] visits them;
    - a call either returns or throws: [completion];
    - the host (the HTML 5 database object behind [this._db]) is an explicit
      state with a queue of submitted transactions; every call that reaches
      it and every callback it fires is recorded in a trace;
    - the rows a statement returns and the last insert id are left out of
      the host; [_convertResultSet] is embedded on its own;
    - a request for a URL is embedded from the point where it is complete:
      its status, and the document when the text parses;
    - a name that is declared nowhere in the file ([it], [debug]) is taken to
      be unbound in the global scope as well: reading it throws. *)

From Stdlib Require Import String Ascii List Bool Arith ZArith Lia.
Import ListNotations.
Open Scope string_scope.

Set Implicit Arguments.

(** ** Strings *)

Module Str.

(** Number of occurrences of the character [c] in [s]. *)
Fixpoint count (c : ascii) (s : string) : nat :=
  match s with
  | EmptyString => 0
  | String a s' => (if Ascii.eqb a c then 1 else 0) + count c s'
  end.

(** Last character of a string, if any. *)
Fixpoint last (s : string) : option ascii :=
  match s with
  | EmptyString => None
  | String a EmptyString => Some a
  | String _ s' => last s'
  end.

(** [String.prototype.substr(start, length)] for a start that is not
    negative; a negative length gives the empty string, as the truncated
    subtraction of [nat] does. *)
Definition substr (start len : nat) (s : string) : string :=
  substring start len s.

(** [Array.prototype.join(sep)] on an array of strings. *)
Definition join (sep : string) (l : list string) : string :=
  String.concat sep l.

(** The characters matched by [\s] among the code units below 256. *)
Definition is_space (a : ascii) : bool :=
  let n := nat_of_ascii a in
  (((9 <=? n) && (n <=? 13)) || (n =? 32) || (n =? 160))%nat.

Fixpoint trim_left (s : string) : string :=
  match s with
  | EmptyString => EmptyString
  | String a s' => if is_space a then trim_left s' else s
  end.

(** Removes a trailing run of [\s]: a character is kept when it is not a
    space or when something is kept after it. *)
Fixpoint trim_right (s : string) : string :=
  match s with
  | EmptyString => EmptyString
  | String a s' =>
      match trim_right s' with
      | EmptyString => if is_space a then EmptyString else String a EmptyString
      | r => String a r
      end
  end.

(** [s.replace(/(^\s*|\s*$)/g, '')] and [s.replace(/^\s+|\s+$/g, '')]:
    both remove the leading and the trailing run of white space. *)
Definition trim (s : string) : string := trim_right (trim_left s).

(** [s.lastIndexOf(c)] for a one-character needle, as an integer; [-1]
    when [c] does not occur. *)
Fixpoint lastIndexOf_from (c : ascii) (s : string) (i : Z) (found : Z) : Z :=
  match s with
  | EmptyString => found
  | String a s' =>
      lastIndexOf_from c s' (i + 1) (if Ascii.eqb a c then i else found)
  end.

Definition lastIndexOf (c : ascii) (s : string) : Z :=
  lastIndexOf_from c s 0 (-1).

End Str.

(** ** Values *)

(** The two builds. *)
Inductive build : Type := Standalone | Enyo.

(** Scalars stored in rows and predicates. *)
Inductive scalar : Type :=
| SNull
| SNum (n : Z)
| SStr (s : string).

(** An object used as a mapping column -> value, in [for-in] order. *)
Definition mapping : Type := list (string * scalar).

(** [DatabaseQuery]: an object with the properties [sql] and [values]. *)
Record DatabaseQuery : Type := mkDatabaseQuery {
  sql : string;
  values : list scalar
}.

(** What a thrown value can be in the code embedded here. *)
Inductive exn : Type :=
| ReferenceError (name : string)   (* read of a name that is not declared *)
| TypeError (what : string)        (* call of, or property read on, undefined *)
| Error (message : string).        (* [throw new Error(message)] *)

(** Outcome of a call. *)
Inductive completion (A : Type) : Type :=
| Normal (a : A)
| Throw (e : exn).

Arguments Normal {A} a.
Arguments Throw {A} e.

Definition bind {A B : Type} (c : completion A) (k : A -> completion B)
  : completion B :=
  match c with
  | Normal a => k a
  | Throw e => Throw e
  end.

Notation "x <- c ;; k" := (bind c (fun x => k))
  (at level 61, c at next level, right associativity).

(** ** The array test *)

(** The arguments the array test is applied to. *)
Inductive tested : Type :=
| IsAnArray
| IsNotAnArray.

(** [_isArray] (standalone) and [enyo.isArray].  The standalone body is
    [Object.prototype.toString.apply(it) === '[object Array]']: it reads [it],
    which is neither its parameter [testIt] nor declared anywhere in the file,
    so evaluating it throws whatever the argument is. *)
Definition _isArray (b : build) (x : tested) : completion bool :=
  match b with
  | Standalone => Throw (ReferenceError "it")
  | Enyo => Normal (match x with IsAnArray => true | IsNotAnArray => false end)
  end.

(** ** SQL methods *)

(** One turn of the loop of [getInsert]. *)
Definition getInsert_step (st : string * string * list scalar)
  (entry : string * scalar) : string * string * list scalar :=
  let '(sql, valueString, colValues) := st in
  let '(key, value) := entry in
  (sql ++ key ++ ", ", valueString ++ "?" ++ ", ", (colValues ++ [value])%list).

Definition getInsert (tableName : string) (data : mapping) : DatabaseQuery :=
  let '(sql, valueString, colValues) :=
    fold_left getInsert_step data
      ("INSERT INTO " ++ tableName ++ " (", " VALUES (", []) in
  let sql := Str.substr 0 (String.length sql - 2) sql ++ ")" in
  let valueString :=
    Str.substr 0 (String.length valueString - 2) valueString ++ ")" in
  {| sql := sql ++ valueString; values := colValues |}.

(** One turn of the loops that push [key + ' = ?'] and the value. *)
Definition clause_step (st : list string * list scalar)
  (entry : string * scalar) : list string * list scalar :=
  let '(strings, sqlValues) := st in
  let '(key, value) := entry in
  ((strings ++ [(key ++ " = ?")%string])%list, (sqlValues ++ [value])%list).

(** The [columns] argument of [getSelect]. *)
Inductive columns_arg : Type :=
| ColumnsUndefined
| ColumnsNull
| ColumnsString (s : string)
| ColumnsArray (names : list string).

Definition columns_tested (c : columns_arg) : tested :=
  match c with
  | ColumnsArray _ => IsAnArray
  | _ => IsNotAnArray
  end.

(** [where_] is the argument [where]: [None] when it is undefined. *)
Definition getSelect (b : build) (tableName : string) (columns : columns_arg)
  (where_ : option mapping) : completion DatabaseQuery :=
  colStr <-
    match columns with
    | ColumnsNull => Normal "*"
    | ColumnsString "" => Normal "*"
    | _ =>
        isArr <- _isArray b (columns_tested columns) ;;
        match isArr, columns with
        | true, ColumnsArray names =>
            Normal (Str.join ", " (fold_left (fun acc c => (acc ++ [c])%list) names []))
        | _, _ => Normal ""
        end
    end ;;
  let sql := "SELECT " ++ colStr ++ " FROM " ++ tableName in
  match where_ with
  | Some w =>
      let '(whereStrings, sqlValues) := fold_left clause_step w ([], []) in
      Normal {| sql := sql ++ " WHERE " ++ Str.join " AND " whereStrings;
                values := sqlValues |}
  | None =>
      (* [sqlValues] is undefined: [DatabaseQuery] falls back to [[]] *)
      Normal {| sql := sql; values := [] |}
  end.

Definition getUpdate (tableName : string) (data where_ : mapping)
  : DatabaseQuery :=
  let sql := "UPDATE " ++ tableName ++ " SET " in
  let '(sqlStrings, sqlValues) := fold_left clause_step data ([], []) in
  let sql := sql ++ Str.join ", " sqlStrings in
  let sql := sql ++ " WHERE " in
  let '(whereStrings, sqlValues) := fold_left clause_step where_ ([], sqlValues) in
  {| sql := sql ++ Str.join " AND " whereStrings; values := sqlValues |}.

Definition getDelete (tableName : string) (where_ : mapping) : DatabaseQuery :=
  let sql := "DELETE FROM " ++ tableName ++ " WHERE " in
  let '(whereStrings, sqlValues) := fold_left clause_step where_ ([], []) in
  {| sql := sql ++ Str.join " AND " whereStrings; values := sqlValues |}.

(** A column object of a schema: [constraints] may be missing. *)
Record column_def : Type := mkColumn {
  column : string;
  type : string;
  constraints : option (list string)
}.

(** One turn of the loop of [getCreateTable]; an array, even an empty one, is
    truthy, so a present [constraints] always adds the space. *)
Definition getCreateTable_step (colStr : list string) (col : column_def)
  : list string :=
  let colDef := column col ++ " " ++ type col in
  let colDef :=
    match constraints col with
    | Some cs => colDef ++ " " ++ Str.join " " cs
    | None => colDef
    end in
  (colStr ++ [colDef])%list.

Definition getCreateTable (tableName : string) (columns : list column_def)
  (ifNotExists : option bool) : string :=
  let ifNotExists := match ifNotExists with Some f => f | None => true end in
  let sql := "CREATE TABLE " in
  let sql := if ifNotExists then sql ++ "IF NOT EXISTS " else sql in
  let sql := sql ++ tableName ++ " (" in
  let colStr := fold_left getCreateTable_step columns [] in
  sql ++ Str.join ", " colStr ++ ")".

Definition getDropTable (tableName : string) : string :=
  "DROP TABLE IF EXISTS " ++ tableName.

(** ** Schemas, options and callbacks *)

(** The [data] property of a table object: one row or an array of rows. *)
Inductive rows_arg : Type :=
| RowsObject (row : mapping)
| RowsArray (rows : list mapping).

(** A table object of a schema; [columns] and [data] may be missing. *)
Record table_def : Type := mkTable {
  table : string;
  columns : option (list column_def);
  data : option rows_arg
}.

(** An element of a schema: an SQL string or a table object. *)
Inductive schema_item : Type :=
| SqlString (s : string)
| TableObject (t : table_def).

(** The [schema] argument: an array, or a single element. *)
Inductive schema_arg : Type :=
| SchemaArray (items : list schema_item)
| SchemaSingle (item : schema_item).

(** The [data] argument of [insertData]: an array of table objects, a single
    one, or an object of another kind without a [data] property (what the
    function receives when it is called with a transaction object). *)
Inductive data_arg : Type :=
| DataArray (tables : list table_def)
| DataSingle (t : table_def)
| DataForeign.

(** A query passed to [query] or [queries]: an SQL string or a
    [DatabaseQuery]. *)
Inductive query_arg : Type :=
| QString (s : string)
| QObject (q : DatabaseQuery).

(** Functions that are passed around as callbacks.  [UserFunction] is a
    function of the caller: calling it is recorded and has no other effect. *)
Inductive callback : Type :=
| UserFunction (name : string)
| EmptyFunction                          (* [_emptyFunction] *)
| ErrorHandler                           (* [bound._errorHandler] *)
| QuerySuccess (onSuccess : callback)
    (* the anonymous statement callback of [query] *)
| BoundInsertData (data : list table_def) (onSuccess onError : callback)
    (* [insertData] bound to [(data, options)] *)
| UnboundInsertData
    (* [insertData] when the binding helper dropped [(data, options)] *)
| BoundVersionChanged (newVersion : string) (onSuccess : callback)
    (* [_versionChanged] bound to [(newVersion, options.onSuccess)] *)
| UnboundVersionChanged
    (* [_versionChanged] when the binding helper dropped its arguments *)
| VersionUpdateFailed (newVersion : string)
| VersionUpdateSuccess (newVersion : string).
    (* the two anonymous functions of [changeVersion] *)

(** An options object given by the caller; [None] is a missing key. *)
Record options : Type := mkOptions {
  opt_values : option (list scalar);
  opt_onSuccess : option callback;
  opt_onError : option callback
}.

Definition no_options : options :=
  {| opt_values := None; opt_onSuccess := None; opt_onError := None |}.

(** The options after the merge with the defaults: [onSuccess] and [onError]
    are always there; [values] is there when the caller or the extra defaults
    gave it. *)
Record merged : Type := mkMerged {
  values_of : option (list scalar);
  onSuccess : callback;
  onError : callback
}.

(** [_getOptions(userOptions, extraOptions)]: the defaults, then the extra
    defaults ([{"values": []}] in [query], nothing elsewhere), then the keys
    of the caller. *)
Definition _getOptions (userOptions : options)
  (extraOptions : option (list scalar)) : merged :=
  {| values_of :=
       match opt_values userOptions with
       | Some v => Some v
       | None => extraOptions
       end;
     onSuccess :=
       match opt_onSuccess userOptions with
       | Some f => f
       | None => EmptyFunction
       end;
     onError :=
       match opt_onError userOptions with
       | Some f => f
       | None => ErrorHandler
       end |}.

(** Merged options passed again as caller options, as [setSchema] does. *)
Definition as_options (o : merged) : options :=
  {| opt_values := values_of o; opt_onSuccess := Some (onSuccess o);
     opt_onError := Some (onError o) |}.

(** ** The object, the host and the trace *)

Inductive db_handle : Type := OpenedDatabase.

(** The fields of a [Database] instance.  [_db] is [None] when the field is
    falsy; [_dbVersion] is [None] when it holds [undefined]. *)
Record Database : Type := mkDatabase {
  _db : option db_handle;
  _dbVersion : option string;
  debug : bool
}.

(** A statement as the host runs it. *)
Abbreviation statement := (string * list scalar)%type (only parsing).

(** The host side of the connection. *)
Record host : Type := mkHost {
  closed : bool;                   (* [close()] was called on it *)
  version : string;                (* the version the database really has *)
  store : list statement           (* the statements committed so far *)
}.

(** A call of [transaction.executeSql]. *)
Record request : Type := mkRequest {
  req_sql : string;
  req_values : list scalar;
  req_onSuccess : option callback;
  req_onError : option callback
}.

(** The function passed as transaction callback. *)
Inductive tx_callback : Type :=
| QueryBody (text : string) (opts : merged)
| QueriesBody (queries : list query_arg) (opts : merged) (DEBUG : bool)
| EmptyBody
| SchemaBody (schema : list schema_item).

(** What was handed to the host and waits to be run. *)
Inductive task : Type :=
| Transaction (body : tx_callback) (errorCallback : option callback)
| ChangeVersion (oldVersion : option string) (newVersion : string)
    (body : tx_callback) (errorCallback successCallback : option callback).

Inductive event : Type :=
| HostClose                                  (* [_db.close()] *)
| HostTransaction                            (* [_db.transaction(...)] *)
| HostChangeVersion (oldVersion : option string) (newVersion : string)
| ExecuteSql (sql : string) (values : list scalar)
    (* [transaction.executeSql(...)] called by a transaction callback *)
| StatementDone (sql : string) (values : list scalar)
| StatementFailed (sql : string) (values : list scalar)
| Committed
| RolledBack
| Called (name : string)                     (* a function of the caller runs *)
| Logged (text : string)                     (* a line sent to the log *)
| LoggedSql (sql : string) (values : list scalar)
| Uncaught (e : exn).                        (* an exception nobody handles *)

Record machine : Type := mkMachine {
  this : Database;
  hst : host;
  pending : list task;
  trace : list event                         (* oldest first *)
}.

(** Methods are state transformers that return or throw. *)
Definition M (A : Type) : Type := machine -> completion A * machine.

Definition ret {A : Type} (a : A) : M A := fun m => (Normal a, m).
Definition throw {A : Type} (e : exn) : M A := fun m => (Throw e, m).
Definition lift {A : Type} (c : completion A) : M A := fun m => (c, m).

Definition mbind {A B : Type} (c : M A) (k : A -> M B) : M B :=
  fun m =>
    match c m with
    | (Normal a, m') => k a m'
    | (Throw e, m') => (Throw e, m')
    end.

Notation "x <-- c ;;; k" := (mbind c (fun x => k))
  (at level 61, c at next level, right associativity).
Notation "c ;;; k" := (mbind c (fun _ => k))
  (at level 61, right associativity).

Definition emit (e : event) : M unit :=
  fun m => (Normal tt,
            {| this := this m; hst := hst m; pending := pending m;
               trace := (trace m ++ [e])%list |}).

Definition submit (t : task) : M unit :=
  fun m => (Normal tt,
            {| this := this m; hst := hst m;
               pending := (pending m ++ [t])%list; trace := trace m |}).

Definition set_this (d : Database) : M unit :=
  fun m => (Normal tt,
            {| this := d; hst := hst m; pending := pending m;
               trace := trace m |}).

Definition set_host (h : host) : M unit :=
  fun m => (Normal tt,
            {| this := this m; hst := h; pending := pending m;
               trace := trace m |}).

Definition get_this : M Database := fun m => (Normal (this m), m).
Definition get_host : M host := fun m => (Normal (hst m), m).

(** ** Standard database methods *)

Definition getVersion (m : machine) : option string := _dbVersion (this m).

(** [close]: [this._db.close()]. *)
Definition close : M unit :=
  d <-- get_this ;;;
  match _db d with
  | None => throw (TypeError "this._db.close")
  | Some _ =>
      h <-- get_host ;;;
      emit HostClose ;;;
      set_host {| closed := true; version := version h; store := store h |}
  end.

Definition lost_message : string :=
  "Database: connection has been closed or lost; cannot execute SQL".

(** [_db_lost]: the standalone build throws, the Enyo build reports through
    [this.error] and returns. *)
Definition _db_lost (b : build) : M unit :=
  match b with
  | Standalone => throw (Error lost_message)
  | Enyo => emit (Logged lost_message)
  end.

(** The text [query] hands to the host: trimmed, and with [';'] appended
    unless the last [';'] sits at the last position. *)
Definition terminate (text : string) : string :=
  let text := Str.trim text in
  if (Str.lastIndexOf ";" text =? Z.of_nat (String.length text) - 1)%Z
  then text else text ++ ";".

Definition query (b : build) (sql_arg : query_arg) (opts : options) : M unit :=
  d <-- get_this ;;;
  match _db d with
  | None => _db_lost b
  | Some _ =>
      let '(text, opts) :=
        match sql_arg with
        | QString s => (s, opts)
        | QObject q =>
            (sql q,
             {| opt_values := Some (values q);
                opt_onSuccess := opt_onSuccess opts;
                opt_onError := opt_onError opts |})
        end in
      let opts := _getOptions opts (Some []) in
      let text := terminate text in
      emit HostTransaction ;;;
      submit (Transaction (QueryBody text opts) None)
  end.

(** [queries]: one transaction for the whole array. *)
Definition queries (b : build) (qs : list query_arg) (opts : options)
  : M unit :=
  d <-- get_this ;;;
  match _db d with
  | None => _db_lost b
  | Some _ =>
      let opts := _getOptions opts None in
      let DEBUG := debug d in
      emit HostTransaction ;;;
      submit (Transaction (QueriesBody qs opts DEBUG) (Some (onError opts)))
  end.

(** ** JSON methods *)

Definition schema_tested (s : schema_arg) : tested :=
  match s with SchemaArray _ => IsAnArray | SchemaSingle _ => IsNotAnArray end.

(** [if (!isArray(schema)) schema = [schema]].  The test answers [true] for
    an array or throws, so an array is never wrapped: the second line is not
    reached. *)
Definition schema_items (isArr : bool) (s : schema_arg) : list schema_item :=
  match isArr, s with
  | true, SchemaArray items => items
  | _, SchemaArray items => []
  | _, SchemaSingle item => [item]
  end.

(** One turn of the loop of [setSchema] over the schema. *)
Definition setSchema_step (st : list query_arg * list table_def)
  (item : schema_item) : list query_arg * list table_def :=
  let '(tableQueries, dat) := st in
  match item with
  | SqlString s => ((tableQueries ++ [QString s])%list, dat)
  | TableObject t =>
      let tableQueries :=
        match columns t with
        | Some cols =>
            (tableQueries ++ [QString (getCreateTable (table t) cols None)])%list
        | None => tableQueries
        end in
      let dat :=
        match data t with
        | Some rows =>
            (dat ++ [{| table := table t; columns := None;
                        data := Some rows |}])%list
        | None => dat
        end in
      (tableQueries, dat)
  end.

(** The binding helpers.  [enyo.bind(scope, method, args...)] keeps the extra
    arguments; [_bind(scope, method)] of the standalone build ignores them and
    calls [method] with the arguments of the call alone. *)
Definition bind_insertData (b : build) (dat : list table_def) (o : merged)
  : callback :=
  match b with
  | Enyo => BoundInsertData dat (onSuccess o) (onError o)
  | Standalone => UnboundInsertData
  end.

Definition bind_versionChanged (b : build) (newVersion : string)
  (cb : callback) : callback :=
  match b with
  | Enyo => BoundVersionChanged newVersion cb
  | Standalone => UnboundVersionChanged
  end.

Definition setSchema (b : build) (schema : schema_arg) (opts : options)
  : M unit :=
  isArr <-- lift (_isArray b (schema_tested schema)) ;;;
  let schema := schema_items isArr schema in
  let opts := _getOptions opts None in
  let '(tableQueries, dat) := fold_left setSchema_step schema ([], []) in
  if (0 <? List.length dat)%nat then
    let dataInsertFollowup := bind_insertData b dat opts in
    queries b tableQueries
      {| opt_values := None; opt_onSuccess := Some dataInsertFollowup;
         opt_onError := Some (onError opts) |}
  else
    queries b tableQueries (as_options opts).

Definition data_tested (d : data_arg) : tested :=
  match d with DataArray _ => IsAnArray | _ => IsNotAnArray end.

Definition rows_tested (r : rows_arg) : tested :=
  match r with RowsArray _ => IsAnArray | RowsObject _ => IsNotAnArray end.

(** The inner part of the loop of [insertData] for one table object. *)
Definition insertData_table (b : build) (dataQueries : list query_arg)
  (t : table_def) : completion (list query_arg) :=
  match data t with
  | None => Normal dataQueries
  | Some rows =>
      let tableName := table t in
      isArr <- _isArray b (rows_tested rows) ;;
      let inserts :=
        match isArr, rows with
        | true, RowsArray l => l
        | _, RowsArray l => []          (* not reached, as in [schema_items] *)
        | _, RowsObject r => [r]
        end in
      Normal (fold_left
                (fun acc row => (acc ++ [QObject (getInsert tableName row)])%list)
                inserts dataQueries)
  end.

Fixpoint insertData_loop (b : build) (tables : list table_def)
  (dataQueries : list query_arg) : completion (list query_arg) :=
  match tables with
  | [] => Normal dataQueries
  | t :: rest =>
      dataQueries <- insertData_table b dataQueries t ;;
      insertData_loop b rest dataQueries
  end.

Definition insertData (b : build) (dat : data_arg) (opts : options) : M unit :=
  isArr <-- lift (_isArray b (data_tested dat)) ;;;
  let tables :=
    match isArr, dat with
    | true, DataArray l => l
    | _, DataArray l => []          (* not reached, as in [schema_items] *)
    | _, DataSingle t => [t]
    | _, DataForeign => []      (* the wrapped object has no [data] *)
    end in
  let opts := _getOptions opts None in
  dataQueries <-- lift (insertData_loop b tables []) ;;;
  queries b dataQueries (as_options opts).

(** ** Versioning methods *)

(** [changeVersion(newVersion)]; [second] is [arguments[1]] when the old form
    [changeVersion(from, to)] is used. *)
Definition changeVersion (newVersion : string) (second : option string)
  : M unit :=
  let newVersion :=
    match second with Some v => v | None => newVersion end in
  d <-- get_this ;;;
  match _db d with
  | None => throw (TypeError "this._db.changeVersion")
  | Some _ =>
      emit (HostChangeVersion (_dbVersion d) newVersion) ;;;
      submit (ChangeVersion (_dbVersion d) newVersion EmptyBody
                (Some (VersionUpdateFailed newVersion))
                (Some (VersionUpdateSuccess newVersion))) ;;;
      set_this {| _db := _db d; _dbVersion := Some newVersion;
                  debug := debug d |}
  end.

Definition changeVersionWithSchema (b : build) (newVersion : string)
  (schema : schema_arg) (opts : options) : M unit :=
  isArr <-- lift (_isArray b (schema_tested schema)) ;;;
  let schema := schema_items isArr schema in
  let opts := _getOptions opts None in
  d <-- get_this ;;;
  match _db d with
  | None => throw (TypeError "this._db.changeVersion")
  | Some _ =>
      emit (HostChangeVersion (_dbVersion d) newVersion) ;;;
      submit (ChangeVersion (_dbVersion d) newVersion (SchemaBody schema)
                (Some (onError opts))
                (Some (bind_versionChanged b newVersion (onSuccess opts))))
  end.

(** ** Calling a callback *)

(** [_versionChanged(newVersion, callback)]; an argument that was not passed
    is [None]. *)
Definition _versionChanged (newVersion : option string)
  (callback_ : option (M unit)) : M unit :=
  d <-- get_this ;;;
  set_this {| _db := _db d; _dbVersion := newVersion; debug := debug d |} ;;;
  match callback_ with
  | Some f => f
  | None => throw (TypeError "callback")
  end.

Fixpoint call (b : build) (cb : callback) : M unit :=
  match cb with
  | UserFunction name => emit (Called name)
  | EmptyFunction => ret tt
  | ErrorHandler => emit (Logged "Database error")  (* code and message left out *)
  | QuerySuccess f => call b f
  | BoundInsertData dat s e =>
      insertData b (DataArray dat)
        {| opt_values := None; opt_onSuccess := Some s; opt_onError := Some e |}
  | UnboundInsertData =>
      (* called by the host with (transaction, results) *)
      insertData b DataForeign no_options
  | BoundVersionChanged v f => _versionChanged (Some v) (Some (call b f))
  | UnboundVersionChanged => _versionChanged None None
  | VersionUpdateFailed v =>
      d <-- get_this ;;;
      if debug d then emit (Logged ("DATABASE VERSION UPDATE FAILED: " ++ v))
      else ret tt
  | VersionUpdateSuccess v =>
      d <-- get_this ;;;
      if debug d then emit (Logged ("DATABASE VERSION UPDATE SUCCESS: " ++ v))
      else ret tt
  end.

(** ** Transaction callbacks *)

(** The outcome of running a transaction callback: what it logged and asked
    for, in order, the statements it queued, and the exception that stopped
    it, if any. *)
Definition body_result : Type :=
  (list event * list request * option exn)%type.

(** The debug test inside the transaction callback of [queries]: the Enyo
    build reads the local [DEBUG]; the standalone build reads [debug], which
    is declared nowhere in scope. *)
Definition debug_test (b : build) (DEBUG : bool) : completion bool :=
  match b with
  | Standalone => Throw (ReferenceError "debug")
  | Enyo => Normal DEBUG
  end.

(** The loop of the transaction callback of [queries]; [vals] is the variable
    [values], which keeps its content from one turn to the next. *)
Fixpoint queriesBody_loop (b : build) (DEBUG : bool) (onS : callback)
  (qs : list query_arg) (vals : list scalar) : body_result :=
  match qs with
  | [] => ([], [], None)
  | q :: rest =>
      let '(text, vals) :=
        match q with
        | QString s => (s, vals)
        | QObject o => (sql o, values o)
        end in
      match debug_test b DEBUG with
      | Throw e => ([], [], Some e)
      | Normal dbg =>
          let logged := if dbg then [LoggedSql text vals] else [] in
          let req :=
            {| req_sql := text; req_values := vals;
               req_onSuccess :=
                 match rest with [] => Some onS | _ :: _ => None end;
               req_onError := None |} in
          let '(evs, reqs, thrown) := queriesBody_loop b DEBUG onS rest vals in
          ((logged ++ [ExecuteSql text vals] ++ evs)%list, req :: reqs, thrown)
      end
  end.

(** The loop of the upgrade callback of [changeVersionWithSchema]; [query_]
    is the variable [query], [None] while it holds [null]. *)
Fixpoint schemaBody_loop (dbg : bool) (schema : list schema_item)
  (query_ : option string) : body_result :=
  match schema with
  | [] => ([], [], None)
  | item :: rest =>
      let query_ :=
        match item with
        | SqlString s => Some s
        | TableObject t =>
            match columns t with
            | Some cols => Some (getCreateTable (table t) cols None)
            | None => query_
            end
        end in
      match query_ with
      | None => ([], [], Some (TypeError "query.sql"))
      | Some text =>
          let logged := if dbg then [LoggedSql text []] else [] in
          let req :=
            {| req_sql := text; req_values := [];
               req_onSuccess := None; req_onError := None |} in
          let '(evs, reqs, thrown) := schemaBody_loop dbg rest query_ in
          ((logged ++ [ExecuteSql text []] ++ evs)%list, req :: reqs, thrown)
      end
  end.

Definition run_body (b : build) (d : Database) (body : tx_callback)
  : body_result :=
  match body with
  | QueryBody text opts =>
      let vals := match values_of opts with Some v => v | None => [] end in
      ((if debug d then [LoggedSql text vals] else []) ++ [ExecuteSql text vals],
       [{| req_sql := text; req_values := vals;
           req_onSuccess := Some (QuerySuccess (onSuccess opts));
           req_onError := Some (onError opts) |}],
       None)%list
  | QueriesBody qs opts DEBUG => queriesBody_loop b DEBUG (onSuccess opts) qs []
  | EmptyBody => ([], [], None)
  | SchemaBody schema => schemaBody_loop (debug d) schema None
  end.

(** ** The host

    The host runs the submitted transactions one after the other.  For each:
    it calls the transaction callback, which queues statements; it runs the
    statements in order, calling the statement callbacks; the first statement
    the engine refuses, and any exception in a callback, ends the transaction
    with a rollback and a call of its error callback; otherwise it commits.
    A version change first compares the expected version with the real one,
    and calls its success callback after the commit.  A closed connection
    refuses every transaction.  The SQL engine is a parameter: [rejects]
    tells, from the statements applied so far, whether the next one fails. *)

Section Host.

Variable rejects : list statement -> statement -> bool.

Definition add_events (evs : list event) (m : machine) : machine :=
  {| this := this m; hst := hst m; pending := pending m;
     trace := (trace m ++ evs)%list |}.

(** Runs a callback on behalf of the host, outside a transaction. *)
Definition fire (b : build) (cb : option callback) (m : machine) : machine :=
  match cb with
  | None => m
  | Some f =>
      match call b f m with
      | (Normal _, m') => m'
      | (Throw e, m') => add_events [Uncaught e] m'
      end
  end.

(** Runs the queued statements on the working copy [work] of the store;
    [None] when the transaction has to fail. *)
Fixpoint run_requests (b : build) (reqs : list request)
  (work : list statement) (m : machine) : option (list statement) * machine :=
  match reqs with
  | [] => (Some work, m)
  | r :: rest =>
      let st := (req_sql r, req_values r) in
      if rejects work st then
        let m := add_events [StatementFailed (req_sql r) (req_values r)] m in
        match req_onError r with
        | Some cb => (None, snd (call b cb m))
        | None => (None, m)
        end
      else
        let m := add_events [StatementDone (req_sql r) (req_values r)] m in
        let work := (work ++ [st])%list in
        match req_onSuccess r with
        | Some cb =>
            match call b cb m with
            | (Normal _, m') => run_requests b rest work m'
            | (Throw _, m') => (None, m')
            end
        | None => run_requests b rest work m
        end
  end.

Definition fail_transaction (b : build) (errorCallback : option callback)
  (m : machine) : machine :=
  fire b errorCallback (add_events [RolledBack] m).

(** Callback, statements and commit of one transaction; [newVersion] is
    the version to install at commit, if any. *)
Definition run_transaction (b : build) (body : tx_callback)
  (newVersion : option string) (errorCallback successCallback : option callback)
  (m : machine) : machine :=
  let '(evs, reqs, thrown) := run_body b (this m) body in
  let m := add_events evs m in
  match thrown with
  | Some _ => fail_transaction b errorCallback m
  | None =>
      match run_requests b reqs (store (hst m)) m with
      | (None, m') => fail_transaction b errorCallback m'
      | (Some work, m') =>
          let h :=
            {| closed := closed (hst m');
               version :=
                 match newVersion with
                 | Some v => v
                 | None => version (hst m')
                 end;
               store := work |} in
          fire b successCallback
            (add_events [Committed]
               {| this := this m'; hst := h; pending := pending m';
                  trace := trace m' |})
      end
  end.

Definition run_task (b : build) (t : task) (m : machine) : machine :=
  match t with
  | Transaction body ecb =>
      if closed (hst m) then fail_transaction b ecb m
      else run_transaction b body None ecb None m
  | ChangeVersion old new body ecb scb =>
      if closed (hst m) then fail_transaction b ecb m
      else
        match old with
        | Some v =>
            if String.eqb v (version (hst m))
            then run_transaction b body (Some new) ecb scb m
            else fail_transaction b ecb m
        | None => fail_transaction b ecb m
        end
  end.

(** The host takes the oldest submitted transaction. *)
Definition step (b : build) (m : machine) : option machine :=
  match pending m with
  | [] => None
  | t :: rest =>
      Some (run_task b t
              {| this := this m; hst := hst m; pending := rest;
                 trace := trace m |})
  end.

(** Lets the host run until nothing is pending, for at most [fuel]
    transactions. *)
Fixpoint settle (b : build) (fuel : nat) (m : machine) : machine :=
  match fuel with
  | O => m
  | S n =>
      match step b m with
      | None => m
      | Some m' => settle b n m'
      end
  end.

End Host.

(** A fresh instance whose connection is open on a database at [v]. *)
Definition opened (v : string) (dbg : bool) : machine :=
  {| this := {| _db := Some OpenedDatabase; _dbVersion := Some v; debug := dbg |};
     hst := {| closed := false; version := v; store := [] |};
     pending := [];
     trace := [] |}.

(** * Definitions used to state the properties *)

(** ** The builders without their loops *)

(** The text a loop builds when it appends every element followed by a comma
    and a space, as [getInsert] does for the keys and for the marks. *)
Fixpoint comma_text (l : list string) : string :=
  match l with
  | [] => ""
  | x :: rest => x ++ ", " ++ comma_text rest
  end.

Definition mark (_ : string * scalar) : string := "?".

Definition clause (entry : string * scalar) : string := fst entry ++ " = ?".

(** The [WHERE] part and the values, in the words of the specification:
    [col = ?] clauses joined by [AND] in the order of the predicate, nothing
    without a predicate. *)
Definition where_text (where_ : option mapping) : string :=
  match where_ with
  | None => ""
  | Some w => " WHERE " ++ Str.join " AND " (map clause w)
  end.

Definition where_values (where_ : option mapping) : list scalar :=
  match where_ with
  | None => []
  | Some w => map snd w
  end.

(** One column, in the words of the specification: name, type, then the
    constraints in their order, separated by spaces. *)
Definition column_text (col : column_def) : string :=
  column col ++ " " ++ type col
  ++ match constraints col with
     | Some cs => " " ++ Str.join " " cs
     | None => ""
     end.

(** ** Placeholders *)

(** The number of ['?'] in the SQL text of a statement. *)
Definition placeholders (q : DatabaseQuery) : nat := Str.count "?" (sql q).

(** A name without ['?'], and a mapping whose keys are such names. *)
Definition no_mark (s : string) : bool := Nat.eqb (Str.count "?" s) 0.

Definition no_mark_keys (m : mapping) : bool :=
  forallb (fun entry => no_mark (fst entry)) m.

(** ** What query and queries hand over *)

(** The text [query] works on and the options it merges. *)
Definition query_text (sql_arg : query_arg) : string :=
  match sql_arg with
  | QString s => s
  | QObject q => sql q
  end.

Definition query_options (sql_arg : query_arg) (opts : options) : merged :=
  match sql_arg with
  | QString _ => _getOptions opts (Some [])
  | QObject q =>
      {| values_of := Some (values q);
         onSuccess := onSuccess (_getOptions opts None);
         onError := onError (_getOptions opts None) |}
  end.

(** The statements a batch given to [queries] stands for: a string runs with
    the values left in the variable [values] by the query before it. *)
Fixpoint resolved (qs : list query_arg) (vals : list scalar) : list statement :=
  match qs with
  | [] => []
  | QString s :: rest => (s, vals) :: resolved rest vals
  | QObject o :: rest => (sql o, values o) :: resolved rest (values o)
  end.

Definition plain (st : statement) : request :=
  {| req_sql := fst st; req_values := snd st;
     req_onSuccess := None; req_onError := None |}.

Definition last_of_batch (st : statement) (cb : callback) : request :=
  {| req_sql := fst st; req_values := snd st;
     req_onSuccess := Some cb; req_onError := None |}.

(** The requests of a batch: only the last one carries the callback. *)
Fixpoint batch_requests (sts : list statement) (cb : callback) : list request :=
  match sts with
  | [] => []
  | st :: rest =>
      match rest with
      | [] => [last_of_batch st cb]
      | _ :: _ => plain st :: batch_requests rest cb
      end
  end.

(** What the transaction callback leaves in the trace for a batch. *)
Fixpoint batch_events (dbg : bool) (sts : list statement) : list event :=
  match sts with
  | [] => []
  | st :: rest =>
      ((if dbg then [LoggedSql (fst st) (snd st)] else [])
       ++ [ExecuteSql (fst st) (snd st)] ++ batch_events dbg rest)%list
  end.

Definition no_callback (r : request) : Prop :=
  req_onSuccess r = None /\ req_onError r = None.

Definition statement_of (r : request) : string * list scalar :=
  (req_sql r, req_values r).

(** ** Plans *)

Definition items_of (schema : schema_arg) : list schema_item :=
  match schema with
  | SchemaArray items => items
  | SchemaSingle item => [item]
  end.

(** The structure statements of a plan, in the words of the specification:
    a raw statement passes unchanged, a table with columns gives its
    [CREATE TABLE], the other items give nothing. *)
Fixpoint structure_statements (schema : list schema_item) : list string :=
  match schema with
  | [] => []
  | SqlString s :: rest => s :: structure_statements rest
  | TableObject t :: rest =>
      match columns t with
      | Some cols => getCreateTable (table t) cols None :: structure_statements rest
      | None => structure_statements rest
      end
  end.

(** The tables that carry rows, in plan order. *)
Fixpoint inline_data (schema : list schema_item) : list table_def :=
  match schema with
  | [] => []
  | SqlString _ :: rest => inline_data rest
  | TableObject t :: rest =>
      match data t with
      | Some rows =>
          {| table := table t; columns := None; data := Some rows |}
          :: inline_data rest
      | None => inline_data rest
      end
  end.

(** The [INSERT] statements of the data phase: every (table, row) pair, in
    plan order, then in row order. *)
Definition table_inserts (t : table_def) : list DatabaseQuery :=
  match data t with
  | None => []
  | Some (RowsObject row) => [getInsert (table t) row]
  | Some (RowsArray rows) => map (getInsert (table t)) rows
  end.

Definition insert_statements (tables : list table_def) : list DatabaseQuery :=
  flat_map table_inserts tables.

Definition without_values (text : string) : string * list scalar := (text, []).

Definition with_values (q : DatabaseQuery) : string * list scalar :=
  (sql q, values q).

(** The options [setSchema] gives to [queries] for the structure batch. *)
Definition structure_options (b : build) (schema : list schema_item)
  (o : merged) : merged :=
  match inline_data schema with
  | [] => o
  | _ :: _ =>
      {| values_of := None;
         onSuccess := bind_insertData b (inline_data schema) o;
         onError := onError o |}
  end.

(** ** Callbacks that only report *)

(** A function of the caller, the empty function and the default error
    handler: they submit nothing and change no field. *)
Definition quiet (cb : callback) : bool :=
  match cb with
  | UserFunction _ | EmptyFunction | ErrorHandler => true
  | _ => false
  end.

Definition callback_events (cb : callback) : list event :=
  match cb with
  | UserFunction name => [Called name]
  | ErrorHandler => [Logged "Database error"]
  | _ => []
  end.

(** ** Instances, plans and engines for the examples *)

Definition with_version (d : Database) (v : option string) : Database :=
  {| _db := _db d; _dbVersion := v; debug := debug d |}.

Definition with_store (w : list (string * list scalar)) (m : machine) : machine :=
  {| this := this m;
     hst := {| closed := closed (hst m); version := version (hst m);
               store := w |};
     pending := pending m;
     trace := trace m |}.

(** The instance was opened at version 1; the database has since been moved
    to version 3 by another connection. *)
Definition outdated : machine :=
  {| this := {| _db := Some OpenedDatabase; _dbVersion := Some "1";
                debug := false |};
     hst := {| closed := false; version := "3"; store := [] |};
     pending := [];
     trace := [] |}.

(** The plan of the specification's example: one table with a column, then
    two rows for it. *)
Definition example_plan : schema_arg :=
  SchemaArray
    [TableObject (mkTable "t" (Some [mkColumn "id" "INTEGER" None]) None);
     TableObject (mkTable "t" None
                    (Some (RowsArray [[("id", SNum 1)]; [("id", SNum 2)]])))].

(** The same plan behind a statement the engine will refuse. *)
Definition refused_plan : schema_arg :=
  SchemaArray (SqlString "ALTER TABLE missing ADD COLUMN c TEXT"
               :: items_of example_plan).

(** The callbacks of a caller. *)
Definition caller_options : options :=
  {| opt_values := None; opt_onSuccess := Some (UserFunction "done");
     opt_onError := Some (UserFunction "failed") |}.

(** An SQL engine that accepts every statement. *)
Definition rejects_nothing (_ : list statement) (_ : statement) : bool := false.

(** An SQL engine that refuses the statements whose text is [bad]. *)
Definition rejects_text (bad : string) (_ : list statement) (st : statement)
  : bool :=
  String.eqb (fst st) bad.

(** ** The SQL engine on a list of statements *)

Section Engine.

Variable rejects : list statement -> statement -> bool.

(** The events the engine leaves, and the new content of the store unless a
    statement was refused. *)
Fixpoint engine_run (work : list statement) (sts : list statement)
  : list event * option (list statement) :=
  match sts with
  | [] => ([], Some work)
  | st :: rest =>
      if rejects work st then ([StatementFailed (fst st) (snd st)], None)
      else
        let '(evs, r) := engine_run (work ++ [st]) rest in
        (StatementDone (fst st) (snd st) :: evs, r)
  end.

(** What the host decides for the version change of [changeVersionWithSchema]:
    the new content of the store when it commits, [None] when it refuses
    (closed connection, other version than expected, exception in the
    upgrade callback, statement refused). *)
Definition host_commits (m : machine) (items : list schema_item)
  : option (list (string * list scalar)) :=
  if closed (hst m) then None
  else
    match _dbVersion (this m) with
    | None => None
    | Some v =>
        if String.eqb v (version (hst m)) then
          let '(_, reqs, thrown) :=
            schemaBody_loop (debug (this m)) items None in
          match thrown with
          | Some _ => None
          | None =>
              snd (engine_run (store (hst m)) (map statement_of reqs))
          end
        else None
    end.

End Engine.

(** * Other parts of the class *)

(** ** The constructor of the standalone build *)

(** [new Database(name, version, estimatedSize, debug)].  [name] is [None]
    when the argument is not a string; [ver] and [dbg] are [None] when the
    call has fewer than two and four arguments.  [openDatabase] stands for
    the function of the host: from the name and the version asked for, the
    connection it returns, or [None] when it returns [null]. *)
Definition Database_new (openDatabase : string -> string -> option host)
  (name : option string) (ver : option string) (dbg : option bool)
  : completion machine :=
  match name with
  | None => Throw (Error "Database class constructor requires name argument")
  | Some name =>
      let ver := match ver with Some v => v | None => "1" end in
      let dbg := match dbg with Some d => d | None => false end in
      match openDatabase name ver with
      | None => Throw (Error ("Database: failed to open database named " ++ name))
      | Some h =>
          Normal {| this := {| _db := Some OpenedDatabase;
                               _dbVersion := Some (version h);
                               debug := dbg |};
                    hst := h;
                    pending := [];
                    trace := [] |}
      end
  end.

(** ** Reading a document from a URL *)

(** What the request came back with: the status, and the document when the
    text parses as JSON. *)
Record response (A : Type) : Type := mkResponse {
  status : Z;
  parsed : option A
}.

(** The statuses the code takes for a success: the standalone build tests
    [!status || (status >= 200 && status < 300) || status === 304], the Enyo
    build [status === 200 || status === 0]. *)
Definition accepted_status (b : build) (st : Z) : bool :=
  match b with
  | Standalone =>
      ((st =? 0) || ((200 <=? st) && (st <? 300)) || (st =? 304))%Z
  | Enyo => ((st =? 200) || (st =? 0))%Z
  end.

(** [try { c } catch (e) { handler }]. *)
Definition try_catch {A : Type} (c : M A) (handler : exn -> M A) : M A :=
  fun m =>
    match c m with
    | (Throw e, m') => handler e m'
    | r => r
    end.

Definition read_failure (url : string) : string :=
  "Database: failed to read JSON at URL `" ++ url ++ "`".

(** [_readURL] ([_readUrl] in the Enyo build) once the request is complete:
    the parse and the callback sit in one [try]. *)
Definition _readURL {A : Type} (b : build) (url : string) (resp : response A)
  (callback_ : A -> M unit) : M unit :=
  if accepted_status b (status resp) then
    match parsed resp with
    | None => emit (Logged "JSON request error:")
    | Some json =>
        try_catch (callback_ json) (fun _ => emit (Logged "JSON request error:"))
    end
  else
    match b with
    | Standalone => throw (Error (read_failure url))
    | Enyo => emit (Logged (read_failure url))
    end.

Definition setSchemaFromURL (b : build) (url : string)
  (resp : response schema_arg) (opts : options) : M unit :=
  _readURL b url resp (fun json => setSchema b json opts).

Definition insertDataFromURL (b : build) (url : string)
  (resp : response data_arg) (opts : options) : M unit :=
  _readURL b url resp (fun json => insertData b json opts).

(** [changeVersionWithSchemaFromUrl] of the Enyo build: the callback is
    [changeVersionWithSchema] bound to [newVersion], and [_readUrl] gets no
    third argument, so the method runs without options. *)
Definition changeVersionWithSchemaFromUrl (newVersion : string) (url : string)
  (resp : response schema_arg) (opts : options) : M unit :=
  _readURL Enyo url resp
    (fun json => changeVersionWithSchema Enyo newVersion json no_options).

(** ** Merging objects *)

(** An object whose properties hold values of type [A], in property order. *)
Definition object (A : Type) : Type := list (string * A).

(** [o[name]]. *)
Fixpoint get_property {A : Type} (name : string) (o : object A) : option A :=
  match o with
  | [] => None
  | (k, v) :: rest => if String.eqb k name then Some v else get_property name rest
  end.

(** [o[name] = v]: an existing property keeps its place, a new one comes
    last. *)
Fixpoint set_property {A : Type} (name : string) (v : A) (o : object A)
  : object A :=
  match o with
  | [] => [(name, v)]
  | (k, w) :: rest =>
      if String.eqb k name then (k, v) :: rest
      else (k, w) :: set_property name v rest
  end.

(** [name in o], and an object as JavaScript has it: no property twice. *)
Fixpoint has_property {A : Type} (name : string) (o : object A) : bool :=
  match o with
  | [] => false
  | (k, _) :: rest => String.eqb k name || has_property name rest
  end.

Fixpoint distinct_keys {A : Type} (o : object A) : bool :=
  match o with
  | [] => true
  | (k, _) :: rest => negb (has_property k rest) && distinct_keys rest
  end.

(** [_mixin(target, source)]; [None] is a falsy argument. *)
Definition _mixin {A : Type} (target source : option (object A)) : object A :=
  let target := match target with Some t => t | None => [] end in
  match source with
  | None => target
  | Some s => fold_left (fun t entry => set_property (fst entry) (snd entry) t) s target
  end.

(** What an options object holds. *)
Inductive option_value : Type :=
| OFunction (f : callback)
| OValues (v : list scalar).

(** [_getOptions] on the objects themselves; [None] is [undefined]. *)
Definition _getOptions_object (userOptions extraOptions : option (object option_value))
  : object option_value :=
  let opts := [("onSuccess", OFunction EmptyFunction);
               ("onError", OFunction ErrorHandler)] in
  let opts :=
    match extraOptions with
    | Some _ => _mixin (Some opts) extraOptions
    | None => opts
    end in
  let userOptions :=
    match userOptions with Some u => u | None => [] end in
  _mixin (Some opts) (Some userOptions).

(** An options record as the object it stands for. *)
Definition options_object (o : options) : object option_value :=
  (match opt_values o with Some v => [("values", OValues v)] | None => [] end
   ++ match opt_onSuccess o with Some f => [("onSuccess", OFunction f)] | None => [] end
   ++ match opt_onError o with Some f => [("onError", OFunction f)] | None => [] end)%list.

Definition extra_object (extraOptions : option (list scalar))
  : option (object option_value) :=
  match extraOptions with
  | Some v => Some [("values", OValues v)]
  | None => None
  end.

(** ** Result sets *)

(** The [rows] of an [SQLResultSet]: a length and [item(i)]. *)
Record row_list (A : Type) : Type := mkRows {
  rows_length : nat;
  rows_item : nat -> A
}.

(** The loop of [_convertResultSet]: [todo] turns are left, [i] is the
    index. *)
Fixpoint convert_loop {A : Type} (rows : row_list A) (todo i : nat)
  (results : list A) : list A :=
  match todo with
  | O => results
  | S todo' => convert_loop rows todo' (S i) (results ++ [rows_item rows i])%list
  end.

(** [_convertResultSet(rs)]; [None] when [rs.rows] is falsy. *)
Definition _convertResultSet {A : Type} (rows : option (row_list A)) : list A :=
  match rows with
  | None => []
  | Some r => convert_loop r (rows_length r) 0 []
  end.

(** ** Sessions *)

(** What can happen to an instance: a call of a method by the caller, or the
    host running the oldest transaction it was given. *)
Inductive operation : Type :=
| DoQuery (sql_arg : query_arg) (opts : options)
| DoQueries (qs : list query_arg) (opts : options)
| DoSetSchema (schema : schema_arg) (opts : options)
| DoInsertData (dat : data_arg) (opts : options)
| DoChangeVersion (newVersion : string) (second : option string)
| DoChangeVersionWithSchema (newVersion : string) (schema : schema_arg)
    (opts : options)
| DoClose
| HostRuns.

Section Sessions.

Variable rejects : list statement -> statement -> bool.

(** The instance after one operation; an exception goes to the caller and
    the instance stays as the method left it. *)
Definition perform (b : build) (m : machine) (op : operation) : machine :=
  match op with
  | DoQuery sql_arg opts => snd (query b sql_arg opts m)
  | DoQueries qs opts => snd (queries b qs opts m)
  | DoSetSchema schema opts => snd (setSchema b schema opts m)
  | DoInsertData dat opts => snd (insertData b dat opts m)
  | DoChangeVersion newVersion second => snd (changeVersion newVersion second m)
  | DoChangeVersionWithSchema newVersion schema opts =>
      snd (changeVersionWithSchema b newVersion schema opts m)
  | DoClose => snd (close m)
  | HostRuns =>
      match step rejects b m with
      | Some m' => m'
      | None => m
      end
  end.

Definition session (b : build) (ops : list operation) (m : machine) : machine :=
  fold_left (perform b) ops m.

End Sessions.

(** ** More definitions used to state the properties *)

(** The column list of [getSelect]: ['*'] for [null] and the empty string,
    the names joined for an array, nothing for anything else. *)
Definition column_list (cols : columns_arg) : string :=
  match cols with
  | ColumnsNull => "*"
  | ColumnsString "" => "*"
  | ColumnsArray names => Str.join ", " names
  | _ => ""
  end.

(** The arguments for which [getSelect] does not call the array test. *)
Definition selects_all (cols : columns_arg) : bool :=
  match cols with
  | ColumnsNull => true
  | ColumnsString "" => true
  | _ => false
  end.

Definition no_mark_columns (cols : columns_arg) : bool :=
  match cols with
  | ColumnsArray names => forallb no_mark names
  | _ => true
  end.

(** The entries of the predicate of [getSelect], none without a predicate. *)
Definition predicate_entries (where_ : option mapping) : mapping :=
  match where_ with
  | Some w => w
  | None => []
  end.

(** The values [query] binds: those of the [DatabaseQuery] when one is
    given, else [options.values], else none. *)
Definition query_values (sql_arg : query_arg) (opts : options) : list scalar :=
  match sql_arg with
  | QObject q => values q
  | QString _ => match opt_values opts with Some v => v | None => [] end
  end.

Definition tables_of (dat : data_arg) : list table_def :=
  match dat with
  | DataArray l => l
  | DataSingle t => [t]
  | DataForeign => []
  end.

(** A table object without its rows, and a schema without any rows. *)
Definition without_rows (item : schema_item) : schema_item :=
  match item with
  | SqlString s => SqlString s
  | TableObject t =>
      TableObject {| table := table t; columns := columns t; data := None |}
  end.

Definition schema_without_rows (schema : schema_arg) : schema_arg :=
  match schema with
  | SchemaArray items => SchemaArray (map without_rows items)
  | SchemaSingle item => SchemaSingle (without_rows item)
  end.

(** The connection field, the debug flag and a closed connection stay as
    they are from [m] to [m']. *)
Definition same_handle (m m' : machine) : Prop :=
  _db (this m') = _db (this m)
  /\ debug (this m') = debug (this m)
  /\ (closed (hst m) = true -> closed (hst m') = true).

(** * Properties *)

(** ** Facts on strings *)

Lemma append_assoc (s t u : string) : (s ++ t) ++ u = s ++ t ++ u.
Proof. induction s as [|a s IH]; simpl; [reflexivity | now rewrite IH]. Qed.

Lemma append_empty_r (s : string) : s ++ "" = s.
Proof. induction s as [|a s IH]; simpl; [reflexivity | now rewrite IH]. Qed.

Lemma length_append (s t : string) :
  String.length (s ++ t) = String.length s + String.length t.
Proof. induction s as [|a s IH]; simpl; [reflexivity | now rewrite IH]. Qed.

Lemma count_append (c : ascii) (s t : string) :
  Str.count c (s ++ t) = Str.count c s + Str.count c t.
Proof. induction s as [|a s IH]; simpl; [reflexivity | rewrite IH; lia]. Qed.

Lemma substr_prefix (s t : string) :
  Str.substr 0 (String.length s) (s ++ t) = s.
Proof.
  unfold Str.substr.
  induction s as [|a s IH]; simpl.
  - destruct t; reflexivity.
  - now rewrite IH.
Qed.

(** Cutting the last two characters, as [s.substr(0, s.length - 2)] does. *)
Lemma substr_drop_two (s : string) (a b : ascii) :
  let full := s ++ String a (String b "") in
  Str.substr 0 (String.length full - 2) full = s.
Proof.
  simpl. rewrite length_append. simpl.
  replace (String.length s + 2 - 2) with (String.length s) by lia.
  apply substr_prefix.
Qed.

Lemma last_append_char (s : string) (a : ascii) :
  Str.last (s ++ String a "") = Some a.
Proof.
  induction s as [|x s IH]; simpl; [reflexivity|].
  rewrite IH. destruct (s ++ String a "") eqn:E; [|reflexivity].
  destruct s; discriminate.
Qed.

Lemma last_append (s t : string) :
  t <> "" -> Str.last (s ++ t) = Str.last t.
Proof.
  intros Ht. induction s as [|x s IH]; simpl; [reflexivity|].
  rewrite IH. destruct (s ++ t) eqn:E; [|reflexivity].
  destruct s; simpl in E; [contradiction | discriminate].
Qed.

Lemma count_join (c : ascii) (sep : string) (l : list string) :
  Str.count c sep = 0 ->
  Str.count c (Str.join sep l) = list_sum (map (Str.count c) l).
Proof.
  intros Hsep. unfold Str.join.
  induction l as [|x l IH]; [reflexivity|].
  destruct l as [|y l].
  - simpl. lia.
  - change (String.concat sep (x :: y :: l))
      with (x ++ sep ++ String.concat sep (y :: l)).
    rewrite !count_append, IH, Hsep. simpl. lia.
Qed.

(** ** The loops of the builders in closed form *)

(** A loop that pushes one element per turn builds the mapped list. *)
Lemma push_loop (A B : Type) (f : A -> B) (l : list A) (acc : list B) :
  fold_left (fun acc x => (acc ++ [f x])%list) l acc = (acc ++ map f l)%list.
Proof.
  revert acc. induction l as [|x l IH]; intros acc; simpl.
  - now rewrite app_nil_r.
  - rewrite IH, <- app_assoc. reflexivity.
Qed.

Lemma getInsert_loop (data : mapping) (s v : string) (vals : list scalar) :
  fold_left getInsert_step data (s, v, vals) =
  (s ++ comma_text (map fst data), v ++ comma_text (map mark data),
   (vals ++ map snd data)%list).
Proof.
  revert s v vals.
  induction data as [|[key value] data IH]; intros s v vals; simpl.
  - now rewrite !append_empty_r, app_nil_r.
  - rewrite IH, !append_assoc, <- app_assoc. reflexivity.
Qed.

(** With at least one element, the text is the joined list and one more
    separator: the two characters that [substr] cuts. *)
Lemma comma_text_join (l : list string) :
  l <> [] -> comma_text l = Str.join ", " l ++ ", ".
Proof.
  induction l as [|x l IH]; [congruence|]. intros _.
  destruct l as [|y l].
  - reflexivity.
  - change (comma_text (x :: y :: l)) with (x ++ ", " ++ comma_text (y :: l)).
    rewrite IH by discriminate.
    change (Str.join ", " (x :: y :: l))
      with (x ++ ", " ++ Str.join ", " (y :: l)).
    now rewrite !append_assoc.
Qed.

Lemma drop_two_comma (p : string) (l : list string) :
  l <> [] ->
  let full := p ++ comma_text l in
  Str.substr 0 (String.length full - 2) full = p ++ Str.join ", " l.
Proof.
  intros Hl. cbv zeta. rewrite (comma_text_join Hl), <- append_assoc.
  apply (substr_drop_two (p ++ Str.join ", " l) "," " ").
Qed.

Lemma getInsert_empty (tableName : string) :
  getInsert tableName [] =
  {| sql := "INSERT INTO " ++ tableName ++ ") VALUES)"; values := [] |}.
Proof.
  unfold getInsert. cbn [fold_left].
  pose proof (substr_drop_two ("INSERT INTO " ++ tableName) " " "(") as H.
  cbv zeta in H. rewrite append_assoc in H. rewrite H.
  rewrite !append_assoc. reflexivity.
Qed.

Lemma getInsert_closed (tableName : string) (data : mapping) :
  data <> [] ->
  getInsert tableName data =
  {| sql := "INSERT INTO " ++ tableName ++ " ("
            ++ Str.join ", " (map fst data) ++ ")"
            ++ " VALUES (" ++ Str.join ", " (map mark data) ++ ")";
     values := map snd data |}.
Proof.
  intros Hd. unfold getInsert. rewrite getInsert_loop. cbv beta iota zeta.
  assert (Hk : map fst data <> []) by (destruct data; [congruence | discriminate]).
  assert (Hm : map mark data <> []) by (destruct data; [congruence | discriminate]).
  pose proof (drop_two_comma ("INSERT INTO " ++ tableName ++ " (") Hk) as H1.
  pose proof (drop_two_comma " VALUES (" Hm) as H2.
  cbv zeta in H1, H2. rewrite H1, H2.
  rewrite !append_assoc, app_nil_l. reflexivity.
Qed.

Lemma clause_loop (w : mapping) (strings : list string) (vals : list scalar) :
  fold_left clause_step w (strings, vals) =
  ((strings ++ map clause w)%list, (vals ++ map snd w)%list).
Proof.
  revert strings vals.
  induction w as [|[key value] w IH]; intros strings vals; simpl.
  - now rewrite !app_nil_r.
  - rewrite IH, <- !app_assoc. reflexivity.
Qed.

(** The builders, without their loops. *)
Lemma getUpdate_closed (tableName : string) (data where_ : mapping) :
  getUpdate tableName data where_ =
  {| sql := ("UPDATE " ++ tableName ++ " SET "
             ++ Str.join ", " (map clause data) ++ " WHERE ")
            ++ Str.join " AND " (map clause where_);
     values := (map snd data ++ map snd where_)%list |}.
Proof.
  unfold getUpdate. rewrite !clause_loop.
  rewrite !app_nil_l, !append_assoc. reflexivity.
Qed.

Lemma getDelete_closed (tableName : string) (where_ : mapping) :
  getDelete tableName where_ =
  {| sql := "DELETE FROM " ++ tableName ++ " WHERE "
            ++ Str.join " AND " (map clause where_);
     values := map snd where_ |}.
Proof.
  unfold getDelete. rewrite clause_loop.
  rewrite !app_nil_l, !append_assoc. reflexivity.
Qed.

(** ** Placeholders and bound values (C1) *)

Lemma no_mark_count (s : string) : no_mark s = true -> Str.count "?" s = 0.
Proof. apply Nat.eqb_eq. Qed.

Lemma count_keys (m : mapping) :
  no_mark_keys m = true ->
  list_sum (map (Str.count "?") (map fst m)) = 0.
Proof.
  induction m as [|[k v] m IH]; simpl; [reflexivity|].
  intros H. apply andb_prop in H. destruct H as [Hk Hm].
  rewrite (no_mark_count _ Hk), (IH Hm). reflexivity.
Qed.

Lemma count_marks (m : mapping) :
  list_sum (map (Str.count "?") (map mark m)) = List.length m.
Proof. induction m as [|e m IH]; simpl; [reflexivity | now rewrite IH]. Qed.

Lemma count_clauses (m : mapping) :
  no_mark_keys m = true ->
  list_sum (map (Str.count "?") (map clause m)) = List.length m.
Proof.
  induction m as [|[k v] m IH]; [reflexivity|].
  intros H. simpl in H. apply andb_prop in H. destruct H as [Hk Hm].
  cbn [map List.length].
  change (list_sum (Str.count "?" (clause (k, v))
                      :: map (Str.count "?") (map clause m)))
    with (Str.count "?" (clause (k, v))
          + list_sum (map (Str.count "?") (map clause m))).
  rewrite (IH Hm).
  unfold clause. cbn [fst]. rewrite count_append, (no_mark_count _ Hk).
  reflexivity.
Qed.

Lemma getInsert_values (tableName : string) (data : mapping) :
  values (getInsert tableName data) = map snd data.
Proof.
  destruct data as [|e data].
  - now rewrite getInsert_empty.
  - now rewrite getInsert_closed by discriminate.
Qed.

Lemma getInsert_placeholders (tableName : string) (data : mapping) :
  no_mark tableName = true -> no_mark_keys data = true ->
  placeholders (getInsert tableName data) = List.length data.
Proof.
  intros Ht Hd. apply no_mark_count in Ht. unfold placeholders.
  destruct data as [|e data].
  - rewrite getInsert_empty. cbn [sql]. rewrite !count_append, Ht. reflexivity.
  - rewrite getInsert_closed by discriminate. cbn [sql].
    rewrite !count_append, !count_join by reflexivity.
    rewrite Ht, (count_keys _ Hd), count_marks. simpl. lia.
Qed.

(** C1, as the code has it: when neither the table name nor a key contains a
    ['?'], the SQL text of [getInsert], [getUpdate] and [getDelete] has as
    many ['?'] as the statement has values; for [getInsert] that is the number
    of keys of the row, and the values are those of the row in iteration
    order. *)
Theorem placeholders_match_values (tableName : string) (data where_ : mapping) :
  no_mark tableName = true ->
  no_mark_keys data = true ->
  no_mark_keys where_ = true ->
  placeholders (getInsert tableName data)
    = List.length (values (getInsert tableName data))
  /\ placeholders (getInsert tableName data) = List.length data
  /\ values (getInsert tableName data) = map snd data
  /\ placeholders (getUpdate tableName data where_)
       = List.length (values (getUpdate tableName data where_))
  /\ placeholders (getDelete tableName where_)
       = List.length (values (getDelete tableName where_)).
Proof.
  intros Ht Hd Hw.
  pose proof (no_mark_count _ Ht) as Ht'.
  repeat split.
  - rewrite getInsert_placeholders, getInsert_values, length_map; auto.
  - now apply getInsert_placeholders.
  - apply getInsert_values.
  - rewrite getUpdate_closed. unfold placeholders. cbn [sql values].
    rewrite !count_append, !count_join by reflexivity.
    rewrite Ht', (count_clauses _ Hd), (count_clauses _ Hw).
    rewrite length_app, !length_map. simpl. lia.
  - rewrite getDelete_closed. unfold placeholders. cbn [sql values].
    rewrite !count_append, !count_join by reflexivity.
    rewrite Ht', (count_clauses _ Hw), length_map. simpl. lia.
Qed.

Lemma placeholders_match_values_witness :
  let data := [("a", SNum 1); ("b", SStr "x")] in
  let where_ := [("id", SNum 7)] in
  placeholders (getInsert "t" data) = List.length (values (getInsert "t" data))
  /\ placeholders (getInsert "t" data) = List.length data
  /\ values (getInsert "t" data) = map snd data
  /\ placeholders (getUpdate "t" data where_)
       = List.length (values (getUpdate "t" data where_))
  /\ placeholders (getDelete "t" where_)
       = List.length (values (getDelete "t" where_)).
Proof.
  apply (placeholders_match_values "t"
           [("a", SNum 1); ("b", SStr "x")] [("id", SNum 7)]);
    reflexivity.
Defined.

(** A key is pasted into the text as it is: with a ['?'] in it, the text has
    two ['?'] for one value. *)
Lemma placeholders_exceed_values :
  let q := getInsert "t" [("a?", SNum 1)] in
  placeholders q = 2 /\ List.length (values q) = 1
  /\ placeholders q <> List.length (values q).
Proof. repeat split. discriminate. Qed.

(** ** Empty mappings (C4) *)

(** C4, as the code has it: the builders do not check their arguments.  With
    an empty row or an empty predicate they return a statement all the same:
    the values are those of the mappings given, and the SQL text is the usual
    frame around an empty list (for [getInsert], with the two characters
    before each closing parenthesis cut). *)
Theorem empty_mappings_are_not_refused (tableName : string)
  (data where_ : mapping) :
  getInsert tableName [] =
    {| sql := "INSERT INTO " ++ tableName ++ ") VALUES)"; values := [] |}
  /\ getUpdate tableName [] where_ =
       {| sql := "UPDATE " ++ tableName ++ " SET  WHERE "
                 ++ Str.join " AND " (map clause where_);
          values := map snd where_ |}
  /\ getUpdate tableName data [] =
       {| sql := "UPDATE " ++ tableName ++ " SET "
                 ++ Str.join ", " (map clause data) ++ " WHERE ";
          values := map snd data |}
  /\ getDelete tableName [] =
       {| sql := "DELETE FROM " ++ tableName ++ " WHERE "; values := [] |}.
Proof.
  repeat split.
  - apply getInsert_empty.
  - rewrite getUpdate_closed. cbn [map app Str.join String.concat].
    rewrite ?append_assoc. reflexivity.
  - rewrite getUpdate_closed. cbn [map Str.join String.concat].
    rewrite ?app_nil_r, ?append_empty_r, ?append_assoc. reflexivity.
  - rewrite getDelete_closed. cbn [map Str.join String.concat].
    rewrite ?append_empty_r. reflexivity.
Qed.

(** The statements built from empty mappings, and an empty row travelling
    through [insertData] up to the host's queue without any error. *)
Lemma empty_mappings_counterexample :
  getInsert "t" [] = {| sql := "INSERT INTO t) VALUES)"; values := [] |}
  /\ getUpdate "t" [] [("id", SNum 1)] =
       {| sql := "UPDATE t SET  WHERE id = ?"; values := [SNum 1] |}
  /\ getDelete "t" [] = {| sql := "DELETE FROM t WHERE "; values := [] |}
  /\ insertData Enyo (DataSingle (mkTable "t" None (Some (RowsObject []))))
       no_options (opened "1" false)
     = (Normal tt,
        {| this := this (opened "1" false);
           hst := hst (opened "1" false);
           pending :=
             [Transaction
                (QueriesBody
                   [QObject {| sql := "INSERT INTO t) VALUES)"; values := [] |}]
                   (_getOptions no_options None) false)
                (Some ErrorHandler)];
           trace := [HostTransaction] |}).
Proof. repeat split. Qed.

(** ** The column list of [getSelect] (C6) *)

Lemma getSelect_with (b : build) (tableName colStr : string)
  (where_ : option mapping) :
  match where_ with
  | Some w =>
      let '(whereStrings, sqlValues) := fold_left clause_step w ([], []) in
      Normal {| sql := ("SELECT " ++ colStr ++ " FROM " ++ tableName)
                       ++ " WHERE " ++ Str.join " AND " whereStrings;
                values := sqlValues |}
  | None =>
      Normal {| sql := "SELECT " ++ colStr ++ " FROM " ++ tableName;
                values := [] |}
  end =
  Normal {| sql := "SELECT " ++ colStr ++ " FROM " ++ tableName
                   ++ where_text where_;
            values := where_values where_ |}.
Proof.
  destruct where_ as [w|]; cbn [where_text where_values].
  - rewrite clause_loop, !app_nil_l, !append_assoc. reflexivity.
  - now rewrite append_empty_r.
Qed.

(** C6, as the code has it: [null] and the empty string give ['*'] in both
    builds; in the Enyo build an array of names is joined with [', '] in the
    given order. *)
Theorem getSelect_columns (b : build) (tableName : string)
  (names : list string) (where_ : option mapping) :
  getSelect b tableName ColumnsNull where_ =
    Normal {| sql := "SELECT * FROM " ++ tableName ++ where_text where_;
              values := where_values where_ |}
  /\ getSelect b tableName (ColumnsString "") where_ =
       Normal {| sql := "SELECT * FROM " ++ tableName ++ where_text where_;
                 values := where_values where_ |}
  /\ getSelect Enyo tableName (ColumnsArray names) where_ =
       Normal {| sql := "SELECT " ++ Str.join ", " names ++ " FROM "
                        ++ tableName ++ where_text where_;
                 values := where_values where_ |}.
Proof.
  repeat split.
  - unfold getSelect. cbn [bind]. apply (getSelect_with b tableName "*").
  - unfold getSelect. cbn [bind]. apply (getSelect_with b tableName "*").
  - unfold getSelect. cbn [_isArray columns_tested bind].
    rewrite push_loop, app_nil_l, map_id.
    apply (getSelect_with Enyo tableName (Str.join ", " names)).
Qed.

(** Without [columns], or with an empty array, the Enyo build leaves the
    column list empty; the standalone build throws as soon as the argument is
    neither [null] nor the empty string. *)
Lemma getSelect_columns_counterexample :
  getSelect Enyo "t" ColumnsUndefined None =
    Normal {| sql := "SELECT  FROM t"; values := [] |}
  /\ getSelect Enyo "t" (ColumnsArray []) None =
       Normal {| sql := "SELECT  FROM t"; values := [] |}
  /\ getSelect Enyo "t" ColumnsUndefined None <>
       Normal {| sql := "SELECT * FROM t"; values := [] |}
  /\ getSelect Standalone "t" ColumnsUndefined None = Throw (ReferenceError "it")
  /\ getSelect Standalone "t" (ColumnsArray ["a"; "b"]) None
       = Throw (ReferenceError "it").
Proof. repeat split. discriminate. Qed.

(** ** CREATE TABLE (C8) *)

Lemma getCreateTable_step_text (acc : list string) (col : column_def) :
  getCreateTable_step acc col = (acc ++ [column_text col])%list.
Proof.
  unfold getCreateTable_step, column_text.
  destruct (constraints col);
    rewrite ?append_assoc, ?append_empty_r; reflexivity.
Qed.

Lemma getCreateTable_loop (cols : list column_def) (acc : list string) :
  fold_left getCreateTable_step cols acc = (acc ++ map column_text cols)%list.
Proof.
  revert acc. induction cols as [|col cols IH]; intros acc.
  - cbn [fold_left map]. now rewrite app_nil_r.
  - cbn [fold_left map].
    rewrite IH, getCreateTable_step_text, <- app_assoc. reflexivity.
Qed.

(** C8: with [ifNotExists] left out, [getCreateTable] renders
    [CREATE TABLE IF NOT EXISTS name (col type constraints..., ...)], the
    columns in the given order and the constraints of each in theirs; the
    example of the specification comes out character for character. *)
Theorem getCreateTable_renders (tableName : string) (cols : list column_def) :
  getCreateTable tableName cols None =
    "CREATE TABLE IF NOT EXISTS " ++ tableName ++ " ("
    ++ Str.join ", " (map column_text cols) ++ ")"
  /\ getCreateTable "t" [mkColumn "id" "INTEGER" (Some ["PRIMARY KEY"])] None
     = "CREATE TABLE IF NOT EXISTS t (id INTEGER PRIMARY KEY)".
Proof.
  split; [|reflexivity].
  unfold getCreateTable. rewrite getCreateTable_loop, app_nil_l.
  rewrite !append_assoc. reflexivity.
Qed.

(** ** The terminating semicolon (C9) *)

Lemma trim_right_fixed (s : string) (a : ascii) :
  Str.last s = Some a -> Str.is_space a = false -> Str.trim_right s = s.
Proof.
  intros Hl Ha. induction s as [|x s IH]; [discriminate|].
  destruct s as [|y s].
  - simpl in Hl. injection Hl as ->. simpl. now rewrite Ha.
  - change (Str.last (String x (String y s))) with (Str.last (String y s)) in Hl.
    change (Str.trim_right (String x (String y s)))
      with (match Str.trim_right (String y s) with
            | EmptyString =>
                if Str.is_space x then EmptyString else String x EmptyString
            | r => String x r
            end).
    now rewrite (IH Hl).
Qed.

Lemma trim_right_kept (s : string) (a : ascii) :
  Str.is_space a = false -> Str.trim_right (String a s) <> "".
Proof.
  intros Ha. simpl. destruct (Str.trim_right s); [rewrite Ha|]; discriminate.
Qed.

(** The last occurrence sits at the last position exactly when the string
    ends with the character. *)
Lemma lastIndexOf_from_last (c : ascii) (s : string) (i found : Z) :
  (found < i)%Z -> s <> "" ->
  (Str.lastIndexOf_from c s i found = i + Z.of_nat (String.length s) - 1)%Z
  <-> Str.last s = Some c.
Proof.
  revert i found. induction s as [|a s IH]; intros i found H Hs; [congruence|].
  destruct s as [|y s].
  - cbn [Str.lastIndexOf_from String.length Str.last].
    destruct (Ascii.eqb_spec a c) as [->|Hn].
    + split; [reflexivity | intros _; lia].
    + split; [intros; lia | congruence].
  - change (Str.last (String a (String y s))) with (Str.last (String y s)).
    change (Str.lastIndexOf_from c (String a (String y s)) i found)
      with (Str.lastIndexOf_from c (String y s) (i + 1)
              (if Ascii.eqb a c then i else found)).
    rewrite <- (IH (i + 1)%Z (if Ascii.eqb a c then i else found)).
    + cbn [String.length]. split; intros E; rewrite E; lia.
    + destruct (Ascii.eqb a c); lia.
    + discriminate.
Qed.

Lemma lastIndexOf_last (c : ascii) (s : string) :
  s <> "" ->
  (Str.lastIndexOf c s = Z.of_nat (String.length s) - 1)%Z
  <-> Str.last s = Some c.
Proof.
  intros Hs. unfold Str.lastIndexOf.
  rewrite <- (@lastIndexOf_from_last c s 0 (-1)) by (auto; lia).
  split; intros E; rewrite E; lia.
Qed.

(** What [query] hands over ends with [';'] as soon as something is left
    after trimming. *)
Lemma terminate_ends (text : string) :
  Str.trim text <> "" -> Str.last (terminate text) = Some ";"%char.
Proof.
  intros Hne. unfold terminate.
  destruct (Z.eqb_spec (Str.lastIndexOf ";" (Str.trim text))
              (Z.of_nat (String.length (Str.trim text)) - 1)) as [E|E].
  - now apply lastIndexOf_last.
  - apply last_append_char.
Qed.

(** A text that starts and ends with characters other than white space and
    does not end with [';'] gets exactly one [';'] appended. *)
Lemma terminate_appends (a z : ascii) (rest : string) :
  Str.is_space a = false -> Str.is_space z = false -> z <> ";"%char ->
  Str.last (String a rest) = Some z ->
  terminate (String a rest) = String a rest ++ ";".
Proof.
  intros Ha Hz Hsemi Hl. unfold terminate, Str.trim.
  cbn [Str.trim_left]. rewrite Ha, (trim_right_fixed _ Hl Hz).
  destruct (Z.eqb_spec (Str.lastIndexOf ";" (String a rest))
              (Z.of_nat (String.length (String a rest)) - 1)) as [E|E];
    [|reflexivity].
  apply lastIndexOf_last in E; [congruence | discriminate].
Qed.

Lemma terminate_ends_after_letter (a : ascii) (rest : string) :
  Str.is_space a = false -> Str.last (terminate (String a rest)) = Some ";"%char.
Proof.
  intros Ha. apply terminate_ends. unfold Str.trim.
  cbn [Str.trim_left]. rewrite Ha. now apply trim_right_kept.
Qed.

Lemma getInsert_last (tableName : string) (data : mapping) :
  Str.last (sql (getInsert tableName data)) = Some ")"%char.
Proof.
  destruct data as [|e data].
  - rewrite getInsert_empty. cbn [sql].
    rewrite <- append_assoc. now rewrite last_append.
  - rewrite getInsert_closed by discriminate. cbn [sql].
    repeat (rewrite <- append_assoc). apply last_append_char.
Qed.

Lemma query_submits (b : build) (sql_arg : query_arg) (opts : options)
  (m : machine) :
  _db (this m) = Some OpenedDatabase ->
  query b sql_arg opts m =
  (Normal tt,
   {| this := this m; hst := hst m;
      pending :=
        (pending m ++
         [Transaction
            (QueryBody (terminate (query_text sql_arg))
               (query_options sql_arg opts)) None])%list;
      trace := (trace m ++ [HostTransaction])%list |}).
Proof.
  intros Hdb. unfold query, mbind, get_this. rewrite Hdb.
  destruct sql_arg; reflexivity.
Qed.

Lemma getSelect_ends (b : build) (tableName : string) (cols : columns_arg)
  (where_ : option mapping) :
  match getSelect b tableName cols where_ with
  | Normal q => Str.last (terminate (sql q)) = Some ";"%char
  | Throw _ => True
  end.
Proof.
  unfold getSelect, bind.
  destruct (match cols with
            | ColumnsNull => Normal "*"
            | ColumnsString "" => Normal "*"
            | _ => _
            end) as [colStr|e]; [|exact I].
  destruct where_ as [w|].
  - destruct (fold_left clause_step w ([], [])) as [whereStrings sqlValues].
    cbn [sql]. now apply (@terminate_ends_after_letter "S").
  - cbn [sql]. now apply (@terminate_ends_after_letter "S").
Qed.

(** The clauses end with the mark of the last one. *)
Lemma clauses_last (w : mapping) :
  w <> [] -> Str.last (Str.join " AND " (map clause w)) = Some "?"%char.
Proof.
  induction w as [|e w IH]; [congruence|]. intros _.
  destruct w as [|e' w'].
  - change (Str.join " AND " (map clause [e])) with (fst e ++ " = ?").
    now rewrite last_append.
  - change (Str.join " AND " (map clause (e :: e' :: w')))
      with (clause e ++ " AND " ++ Str.join " AND " (map clause (e' :: w'))).
    specialize (IH ltac:(discriminate)).
    assert (Hne : Str.join " AND " (map clause (e' :: w')) <> "")
      by (intros E; rewrite E in IH; discriminate).
    rewrite <- !append_assoc. now rewrite last_append.
Qed.

(** A text that ends with the [WHERE] part never ends with [';']: its last
    character is the mark of the last clause, or the space behind [WHERE]
    when there is no clause. *)
Lemma where_last (p : string) (w : mapping) :
  Str.last ((p ++ " WHERE ") ++ Str.join " AND " (map clause w))
  <> Some ";"%char.
Proof.
  destruct w as [|e w].
  - change (Str.join " AND " (map clause [])) with "".
    rewrite append_empty_r, last_append by discriminate. discriminate.
  - assert (Hl := @clauses_last (e :: w) ltac:(discriminate)).
    assert (Hne : Str.join " AND " (map clause (e :: w)) <> "")
      by (intros E; rewrite E in Hl; discriminate).
    rewrite last_append by exact Hne. rewrite Hl. discriminate.
Qed.

(** The text of [getSelect] ends with [';'] only without a predicate, and
    then exactly when the table name does. *)
Lemma getSelect_last (b : build) (tableName : string) (cols : columns_arg)
  (pred : option mapping) :
  match getSelect b tableName cols pred with
  | Normal q =>
      Str.last (sql q) = Some ";"%char
      <-> pred = None /\ Str.last tableName = Some ";"%char
  | Throw _ => True
  end.
Proof.
  unfold getSelect, bind.
  destruct (match cols with
            | ColumnsNull => Normal "*"
            | ColumnsString "" => Normal "*"
            | _ => _
            end) as [colStr|e]; [|exact I].
  destruct pred as [w|].
  - rewrite clause_loop, app_nil_l. cbn [sql].
    rewrite <- (append_assoc ("SELECT " ++ colStr ++ " FROM " ++ tableName)).
    split; [intros H; now apply where_last in H | intros [H _]; discriminate].
  - cbn [sql]. rewrite <- !append_assoc.
    destruct tableName as [|a t].
    + rewrite append_empty_r, last_append by discriminate.
      split; [discriminate | intros [_ H]; discriminate].
    + rewrite last_append by discriminate.
      split; [now split | now intros [_ H]].
Qed.

(** C9, as the code has it: the builders append no [';'] of their own.  The
    text of [getInsert] always ends with the closing parenthesis; that of
    [getUpdate], of [getDelete] and of [getSelect] with a predicate never ends
    with [';']; that of [getSelect] without a predicate ends with [';']
    exactly when the table name it was given does, since names are pasted as
    they are.  [query] is what terminates the text: what it submits for a
    statement of any of the four builders ends with [';'], and for
    [getInsert] it is the text of the builder followed by one [';']. *)
Theorem query_terminates_builder_text (b : build) (tableName : string)
  (data where_ : mapping) (cols : columns_arg) (pred : option mapping)
  (q : DatabaseQuery) (opts : options) (m : machine) :
  _db (this m) = Some OpenedDatabase ->
  Str.last (sql (getInsert tableName data)) = Some ")"%char
  /\ terminate (sql (getInsert tableName data))
     = sql (getInsert tableName data) ++ ";"
  /\ Str.last (sql (getUpdate tableName data where_)) <> Some ";"%char
  /\ Str.last (terminate (sql (getUpdate tableName data where_)))
     = Some ";"%char
  /\ Str.last (sql (getDelete tableName where_)) <> Some ";"%char
  /\ Str.last (terminate (sql (getDelete tableName where_))) = Some ";"%char
  /\ match getSelect b tableName cols pred with
     | Normal s =>
         (Str.last (sql s) = Some ";"%char
          <-> pred = None /\ Str.last tableName = Some ";"%char)
         /\ Str.last (terminate (sql s)) = Some ";"%char
     | Throw _ => True
     end
  /\ query b (QObject q) opts m =
     (Normal tt,
      {| this := this m; hst := hst m;
         pending :=
           (pending m ++
            [Transaction
               (QueryBody (terminate (sql q)) (query_options (QObject q) opts))
               None])%list;
         trace := (trace m ++ [HostTransaction])%list |}).
Proof.
  intros Hdb.
  split; [apply getInsert_last|].
  split.
  { pose proof (getInsert_last tableName data) as Hl.
    destruct data as [|e data].
    - rewrite getInsert_empty in *. cbn [sql] in *.
      now apply (@terminate_appends "I" ")").
    - rewrite getInsert_closed in * by discriminate. cbn [sql] in *.
      now apply (@terminate_appends "I" ")"). }
  split.
  { rewrite getUpdate_closed. cbn [sql].
    assert (E : "UPDATE " ++ tableName ++ " SET "
                ++ Str.join ", " (map clause data) ++ " WHERE "
                = ("UPDATE " ++ tableName ++ " SET "
                   ++ Str.join ", " (map clause data)) ++ " WHERE ")
      by now rewrite !append_assoc.
    rewrite E. apply where_last. }
  split.
  { rewrite getUpdate_closed. cbn [sql].
    now apply (@terminate_ends_after_letter "U"). }
  split.
  { rewrite getDelete_closed. cbn [sql].
    assert (E : "DELETE FROM " ++ tableName ++ " WHERE "
                ++ Str.join " AND " (map clause where_)
                = (("DELETE FROM " ++ tableName) ++ " WHERE ")
                  ++ Str.join " AND " (map clause where_))
      by now rewrite !append_assoc.
    rewrite E. apply where_last. }
  split.
  { rewrite getDelete_closed. cbn [sql].
    now apply (@terminate_ends_after_letter "D"). }
  split.
  { pose proof (getSelect_last b tableName cols pred) as H1.
    pose proof (getSelect_ends b tableName cols pred) as H2.
    destruct (getSelect b tableName cols pred); [now split | exact I]. }
  now apply (query_submits b (QObject q) opts).
Qed.

Lemma query_terminates_builder_text_witness :
  let q := getInsert "t" [("a", SNum 1)] in
  fst (query Enyo (QObject q) no_options (opened "1" false)) = Normal tt
  /\ terminate (sql q) = "INSERT INTO t (a) VALUES (?);".
Proof.
  destruct (@query_terminates_builder_text Enyo "t" [("a", SNum 1)] []
              ColumnsNull None (getInsert "t" [("a", SNum 1)]) no_options
              (opened "1" false) eq_refl)
    as (_ & _ & _ & _ & _ & _ & _ & H).
  split; [now rewrite H | reflexivity].
Defined.

(** None of the four builders ends its text with [';']. *)
Lemma builders_do_not_terminate :
  sql (getInsert "t" [("a", SNum 1)]) = "INSERT INTO t (a) VALUES (?)"
  /\ sql (getUpdate "t" [("a", SNum 1)] [("id", SNum 2)])
     = "UPDATE t SET a = ? WHERE id = ?"
  /\ sql (getDelete "t" [("id", SNum 2)]) = "DELETE FROM t WHERE id = ?"
  /\ getSelect Enyo "t" ColumnsNull (Some [("id", SNum 2)])
     = Normal {| sql := "SELECT * FROM t WHERE id = ?"; values := [SNum 2] |}
  /\ Str.last (sql (getDelete "t" [("id", SNum 2)])) <> Some ";"%char.
Proof. repeat split. discriminate. Qed.

(** ** Running the machine *)

(** When the array test answers, it answers right: the lines of
    [schema_items], [insertData] and [insertData_table] for a wrapped array
    are never taken. *)
Lemma isArray_answer (b : build) (x : tested) (r : bool) :
  _isArray b x = Normal r ->
  b = Enyo /\ r = match x with IsAnArray => true | IsNotAnArray => false end.
Proof. destruct b; [discriminate|]. intros H. injection H as <-. now split. Qed.

Lemma machine_eta (m : machine) :
  {| this := this m; hst := hst m; pending := pending m; trace := trace m |} = m.
Proof. now destruct m. Qed.

Lemma add_events_nil (m : machine) : add_events [] m = m.
Proof. unfold add_events. rewrite app_nil_r. apply machine_eta. Qed.

Lemma add_events_app (evs evs' : list event) (m : machine) :
  add_events evs' (add_events evs m) = add_events (evs ++ evs') m.
Proof. unfold add_events. cbn. now rewrite app_assoc. Qed.

Lemma queries_submits (b : build) (qs : list query_arg) (opts : options)
  (m : machine) :
  _db (this m) = Some OpenedDatabase ->
  queries b qs opts m =
  (Normal tt,
   {| this := this m; hst := hst m;
      pending :=
        (pending m ++
         [Transaction (QueriesBody qs (_getOptions opts None) (debug (this m)))
            (Some (onError (_getOptions opts None)))])%list;
      trace := (trace m ++ [HostTransaction])%list |}).
Proof.
  intros Hdb. unfold queries, mbind, get_this. now rewrite Hdb.
Qed.

(** The transaction callback of [queries] in the standalone build stops at
    its first turn, before any [executeSql]. *)
Lemma queriesBody_standalone (DEBUG : bool) (onS : callback)
  (qs : list query_arg) (vals : list scalar) :
  qs <> [] ->
  queriesBody_loop Standalone DEBUG onS qs vals
  = ([], [], Some (ReferenceError "debug")).
Proof.
  destruct qs as [|q rest]; [congruence|]. intros _.
  cbn [queriesBody_loop]. destruct q; reflexivity.
Qed.

(** ** The standalone build (C10) *)

(** C10, as the code has it: in the standalone build [_isArray] throws for
    every argument, so [setSchema] and [insertData] throw on every call and
    leave the object and the host untouched; and the transaction callback of
    [queries] throws on its first turn whatever the debug flag is, so every
    batch that is not empty is rolled back before a single statement was
    queued, and its error callback is called. *)
Theorem standalone_schema_and_batch_paths_fail
  (rejects : list statement -> statement -> bool)
  (x : tested) (schema : schema_arg) (dat : data_arg)
  (qs : list query_arg) (opts : options) (DEBUG : bool) (m : machine) :
  _db (this m) = Some OpenedDatabase ->
  pending m = [] ->
  qs <> [] ->
  _isArray Standalone x = Throw (ReferenceError "it")
  /\ setSchema Standalone schema opts m = (Throw (ReferenceError "it"), m)
  /\ insertData Standalone dat opts m = (Throw (ReferenceError "it"), m)
  /\ run_body Standalone (this m) (QueriesBody qs (_getOptions opts None) DEBUG)
     = ([], [], Some (ReferenceError "debug"))
  /\ settle rejects Standalone 1 (snd (queries Standalone qs opts m))
     = fire Standalone (Some (onError (_getOptions opts None)))
         (add_events [HostTransaction; RolledBack] m).
Proof.
  intros Hdb Hp Hqs. repeat split.
  - cbn [run_body]. now apply queriesBody_standalone.
  - rewrite (queries_submits Standalone qs opts m Hdb). cbn [snd].
    rewrite Hp. cbn [settle step pending app this hst trace run_task].
    assert (Hfail :
      forall m', this m' = this m ->
        run_transaction rejects Standalone
          (QueriesBody qs (_getOptions opts None) (debug (this m))) None
          (Some (onError (_getOptions opts None))) None m'
        = fail_transaction Standalone
            (Some (onError (_getOptions opts None))) m').
    { intros m' Hm'. unfold run_transaction. cbn [run_body].
      rewrite (queriesBody_standalone _ _ _ Hqs). now rewrite add_events_nil. }
    assert (Hm1 :
      {| this := this m; hst := hst m; pending := [];
         trace := (trace m ++ [HostTransaction])%list |}
      = add_events [HostTransaction] m).
    { unfold add_events. now rewrite Hp. }
    rewrite Hm1.
    destruct (closed (hst m)); [|rewrite Hfail by reflexivity];
      unfold fail_transaction; now rewrite add_events_app.
Qed.

Lemma standalone_schema_and_batch_paths_fail_witness :
  settle rejects_nothing Standalone 1
    (snd (queries Standalone [QString "DELETE FROM t"]
            {| opt_values := None; opt_onSuccess := None;
               opt_onError := Some (UserFunction "failed") |}
            (opened "1" false)))
  = {| this := this (opened "1" false);
       hst := hst (opened "1" false);
       pending := [];
       trace := [HostTransaction; RolledBack; Called "failed"] |}.
Proof.
  destruct (@standalone_schema_and_batch_paths_fail rejects_nothing
              IsAnArray (SchemaArray []) (DataArray [])
              [QString "DELETE FROM t"]
              {| opt_values := None; opt_onSuccess := None;
                 opt_onError := Some (UserFunction "failed") |}
              false (opened "1" false) eq_refl eq_refl)
    as (_ & _ & _ & _ & H); [discriminate|].
  rewrite H. reflexivity.
Defined.

(** An empty batch never reaches the test of [debug]: its transaction
    commits and no error is reported. *)
Lemma empty_batch_commits :
  settle rejects_nothing Standalone 1
    (snd (queries Standalone []
            {| opt_values := None; opt_onSuccess := None;
               opt_onError := Some (UserFunction "failed") |}
            (opened "1" true)))
  = {| this := this (opened "1" true);
       hst := hst (opened "1" true);
       pending := [];
       trace := [HostTransaction; Committed] |}.
Proof. reflexivity. Qed.

(** ** changeVersion (C3) *)

Lemma changeVersion_submits (newVersion : string) (m : machine) :
  _db (this m) = Some OpenedDatabase ->
  changeVersion newVersion None m =
  (Normal tt,
   {| this := with_version (this m) (Some newVersion);
      hst := hst m;
      pending :=
        (pending m ++
         [ChangeVersion (_dbVersion (this m)) newVersion EmptyBody
            (Some (VersionUpdateFailed newVersion))
            (Some (VersionUpdateSuccess newVersion))])%list;
      trace :=
        (trace m ++ [HostChangeVersion (_dbVersion (this m)) newVersion])%list |}).
Proof.
  intros Hdb. unfold changeVersion, mbind, get_this, with_version.
  now rewrite Hdb.
Qed.

Lemma version_update_failed (b : build) (newVersion : string) (m : machine) :
  fail_transaction b (Some (VersionUpdateFailed newVersion)) m =
  add_events
    (RolledBack ::
     if debug (this m)
     then [Logged ("DATABASE VERSION UPDATE FAILED: " ++ newVersion)]
     else []) m.
Proof.
  destruct m as [[db v dbg] h p t].
  unfold fail_transaction, fire, call, mbind, get_this, emit, ret, add_events.
  cbn [this hst pending trace debug]. destruct dbg.
  - cbn [this hst pending trace]. rewrite <- app_assoc. reflexivity.
  - reflexivity.
Qed.

(** C3, the failure half: when the host refuses the change of
    [changeVersion], because the connection is closed or because the database
    is not at the expected version, it calls the error callback and leaves
    its version as it was; [getVersion] answers the new version all the same,
    since the field was assigned right after the call was handed to the
    host. *)
Theorem changeVersion_keeps_new_version_on_failure
  (rejects : list statement -> statement -> bool) (b : build)
  (newVersion : string) (m : machine) :
  _db (this m) = Some OpenedDatabase ->
  pending m = [] ->
  closed (hst m) = true \/ _dbVersion (this m) <> Some (version (hst m)) ->
  let m' := settle rejects b 1 (snd (changeVersion newVersion None m)) in
  pending m' = []
  /\ trace m' =
     (trace m ++
      [HostChangeVersion (_dbVersion (this m)) newVersion; RolledBack] ++
      (if debug (this m)
       then [Logged ("DATABASE VERSION UPDATE FAILED: " ++ newVersion)]
       else []))%list
  /\ version (hst m') = version (hst m)
  /\ getVersion m' = Some newVersion.
Proof.
  intros Hdb Hp Hfail. cbv zeta.
  rewrite (changeVersion_submits newVersion m Hdb). cbn [snd].
  rewrite Hp. cbn [settle step pending app this hst trace].
  set (m1 := {| this := with_version (this m) (Some newVersion);
                hst := hst m; pending := [];
                trace := (trace m ++
                          [HostChangeVersion (_dbVersion (this m)) newVersion])%list |}).
  assert (E : run_task rejects b
                (ChangeVersion (_dbVersion (this m)) newVersion EmptyBody
                   (Some (VersionUpdateFailed newVersion))
                   (Some (VersionUpdateSuccess newVersion))) m1
              = fail_transaction b (Some (VersionUpdateFailed newVersion)) m1).
  { unfold run_task. change (hst m1) with (hst m).
    destruct (closed (hst m)) eqn:Hc; [reflexivity|].
    destruct Hfail as [Hf|Hf]; [congruence|].
    destruct (_dbVersion (this m)) as [v|]; [|reflexivity].
    destruct (String.eqb_spec v (version (hst m))) as [->|]; [congruence|].
    reflexivity. }
  rewrite E, version_update_failed. unfold add_events, getVersion.
  cbn [this hst pending trace m1 with_version _dbVersion debug].
  repeat split. now rewrite <- app_assoc.
Qed.

Lemma changeVersion_keeps_new_version_on_failure_witness :
  let m' :=
    settle rejects_nothing Standalone 1 (snd (changeVersion "2" None outdated)) in
  pending m' = []
  /\ trace m' = [HostChangeVersion (Some "1") "2"; RolledBack]
  /\ version (hst m') = "3"
  /\ getVersion m' = Some "2".
Proof.
  apply (@changeVersion_keeps_new_version_on_failure rejects_nothing
           Standalone "2" outdated eq_refl eq_refl).
  right. discriminate.
Defined.

(** ** Batches on the host *)

Lemma resolved_nil (qs : list query_arg) (vals : list scalar) :
  resolved qs vals = [] -> qs = [].
Proof. destruct qs as [|[s|o] rest]; [reflexivity | discriminate..]. Qed.

Lemma queriesBody_enyo (DEBUG : bool) (onS : callback) (qs : list query_arg)
  (vals : list scalar) :
  queriesBody_loop Enyo DEBUG onS qs vals =
  (batch_events DEBUG (resolved qs vals),
   batch_requests (resolved qs vals) onS, None).
Proof.
  revert vals. induction qs as [|q rest IH]; intros vals; [reflexivity|].
  assert (Hstep : forall text vals',
    (let '(evs, reqs, thrown) := queriesBody_loop Enyo DEBUG onS rest vals' in
     (((if DEBUG then [LoggedSql text vals'] else [])
       ++ [ExecuteSql text vals'] ++ evs)%list,
      {| req_sql := text; req_values := vals';
         req_onSuccess := match rest with [] => Some onS | _ :: _ => None end;
         req_onError := None |} :: reqs, thrown))
    = (batch_events DEBUG ((text, vals') :: resolved rest vals'),
       batch_requests ((text, vals') :: resolved rest vals') onS, None)).
  { intros text vals'. rewrite IH. cbn [batch_events batch_requests fst snd].
    destruct rest as [|q' rest'].
    - reflexivity.
    - destruct (resolved (q' :: rest') vals') eqn:E.
      + apply resolved_nil in E. discriminate.
      + reflexivity. }
  destruct q as [s|o]; cbn [queriesBody_loop debug_test resolved]; apply Hstep.
Qed.

Section Batches.

Variable rejects : list statement -> statement -> bool.

Lemma engine_run_cons (work : list statement) (st : statement)
  (rest : list statement) :
  engine_run rejects work (st :: rest) =
  if rejects work st then ([StatementFailed (fst st) (snd st)], None)
  else (StatementDone (fst st) (snd st) :: fst (engine_run rejects (work ++ [st]) rest),
        snd (engine_run rejects (work ++ [st]) rest)).
Proof.
  cbn [engine_run]. destruct (rejects work st); [reflexivity|].
  now destruct (engine_run rejects (work ++ [st]) rest).
Qed.

(** The host on the requests of a batch: the callback runs after the last
    statement, and only if no statement was refused. *)
Lemma run_batch (b : build) (cb : callback) (sts : list statement)
  (work : list statement) (m : machine) :
  run_requests rejects b (batch_requests sts cb) work m =
  match snd (engine_run rejects work sts) with
  | None => (None, add_events (fst (engine_run rejects work sts)) m)
  | Some w =>
      match sts with
      | [] => (Some w, m)
      | _ :: _ =>
          match call b cb (add_events (fst (engine_run rejects work sts)) m) with
          | (Normal _, m') => (Some w, m')
          | (Throw _, m') => (None, m')
          end
      end
  end.
Proof.
  revert work m.
  induction sts as [|[text vals] rest IH]; intros work m; [reflexivity|].
  rewrite engine_run_cons. cbn [batch_requests].
  destruct rest as [|st' rest'].
  - cbn [run_requests last_of_batch req_sql req_values req_onSuccess
           req_onError engine_run fst snd].
    destruct (rejects work (text, vals)); [reflexivity|]. cbn [fst snd].
    destruct (call b cb (add_events [StatementDone text vals] m))
      as [[u|e] m']; reflexivity.
  - cbn [run_requests plain req_sql req_values req_onSuccess req_onError
           fst snd].
    destruct (rejects work (text, vals)); [reflexivity|].
    rewrite IH. cbn [fst snd]. rewrite !add_events_app. cbn [app].
    destruct (snd (engine_run rejects (work ++ [(text, vals)]) (st' :: rest')));
      reflexivity.
Qed.

End Batches.

(** ** The two phases of setSchema in the Enyo build *)

Lemma setSchema_loop (schema : list schema_item) (tq : list query_arg)
  (dat : list table_def) :
  fold_left setSchema_step schema (tq, dat) =
  ((tq ++ map QString (structure_statements schema))%list,
   (dat ++ inline_data schema)%list).
Proof.
  revert tq dat.
  induction schema as [|item rest IH]; intros tq dat.
  - cbn. now rewrite !app_nil_r.
  - cbn [fold_left setSchema_step]. destruct item as [s|t].
    + rewrite IH. cbn [structure_statements inline_data map].
      now rewrite <- app_assoc.
    + rewrite IH. cbn [structure_statements inline_data].
      destruct (columns t), (data t); cbn [map];
        rewrite <- ?app_assoc; reflexivity.
Qed.

Lemma insertData_loop_enyo (tables : list table_def) (acc : list query_arg) :
  insertData_loop Enyo tables acc =
  Normal (acc ++ map QObject (insert_statements tables))%list.
Proof.
  revert acc. induction tables as [|t rest IH]; intros acc.
  - cbn. now rewrite app_nil_r.
  - cbn [insertData_loop]. unfold insertData_table, insert_statements.
    cbn [flat_map]. fold (insert_statements rest). unfold table_inserts.
    destruct (data t) as [[row|rows]|]; cbn [_isArray rows_tested bind].
    + rewrite IH. cbn [fold_left map app]. now rewrite <- app_assoc.
    + rewrite IH, (push_loop (fun row => QObject (getInsert (table t) row))).
      now rewrite map_app, map_map, <- app_assoc.
    + rewrite IH. reflexivity.
Qed.

Lemma resolved_strings (texts : list string) (vals : list scalar) :
  resolved (map QString texts) vals = map (fun t => (t, vals)) texts.
Proof. induction texts as [|t rest IH]; cbn; [|rewrite IH]; reflexivity. Qed.

Lemma resolved_objects (qs : list DatabaseQuery) (vals : list scalar) :
  resolved (map QObject qs) vals = map with_values qs.
Proof.
  revert vals. induction qs as [|q rest IH]; intros vals; cbn;
    [|rewrite IH]; reflexivity.
Qed.

Lemma merge_twice (o : merged) : _getOptions (as_options o) None = o.
Proof. destruct o as [v s e]. unfold _getOptions, as_options. cbn. now destruct v. Qed.

Lemma setSchema_enyo_submits (schema : schema_arg) (opts : options) (m : machine) :
  _db (this m) = Some OpenedDatabase ->
  setSchema Enyo schema opts m =
  (Normal tt,
   {| this := this m; hst := hst m;
      pending :=
        (pending m ++
         [Transaction
            (QueriesBody (map QString (structure_statements (items_of schema)))
               (structure_options Enyo (items_of schema) (_getOptions opts None))
               (debug (this m)))
            (Some (onError (_getOptions opts None)))])%list;
      trace := (trace m ++ [HostTransaction])%list |}).
Proof.
  intros Hdb. unfold setSchema, mbind, lift.
  assert (Hitems : schema_items
                     (match schema_tested schema with
                      | IsAnArray => true | IsNotAnArray => false end)
                     schema = items_of schema) by now destruct schema.
  cbn [_isArray]. rewrite Hitems, setSchema_loop, !app_nil_l.
  unfold structure_options.
  destruct (inline_data (items_of schema)) as [|t rest] eqn:Hd.
  - cbn [List.length Nat.ltb Nat.leb].
    rewrite (queries_submits Enyo _ _ m Hdb), merge_twice. reflexivity.
  - cbn [List.length Nat.ltb Nat.leb].
    rewrite (queries_submits Enyo _ _ m Hdb). reflexivity.
Qed.

Lemma insertData_enyo_submits (tables : list table_def) (opts : options)
  (m : machine) :
  _db (this m) = Some OpenedDatabase ->
  insertData Enyo (DataArray tables) opts m =
  (Normal tt,
   {| this := this m; hst := hst m;
      pending :=
        (pending m ++
         [Transaction
            (QueriesBody (map QObject (insert_statements tables))
               (_getOptions opts None) (debug (this m)))
            (Some (onError (_getOptions opts None)))])%list;
      trace := (trace m ++ [HostTransaction])%list |}).
Proof.
  intros Hdb. unfold insertData, mbind, lift. cbn [_isArray data_tested].
  rewrite insertData_loop_enyo, app_nil_l.
  rewrite (queries_submits Enyo _ _ m Hdb), merge_twice. reflexivity.
Qed.

Lemma call_quiet (b : build) (cb : callback) (m : machine) :
  quiet cb = true -> call b cb m = (Normal tt, add_events (callback_events cb) m).
Proof.
  destruct cb; try discriminate; intros _; cbn [call callback_events].
  - reflexivity.
  - unfold ret. now rewrite add_events_nil.
  - reflexivity.
Qed.

Section Phases.

Variable rejects : list statement -> statement -> bool.

Lemma settle_idle (b : build) (fuel : nat) (m : machine) :
  pending m = [] -> settle rejects b fuel m = m.
Proof.
  intros Hp. destruct fuel; [reflexivity|]. cbn [settle]. unfold step.
  now rewrite Hp.
Qed.

(** One batch of [queries] on the host, in the Enyo build. *)
Lemma enyo_batch (qs : list query_arg) (o : merged) (DEBUG : bool)
  (ecb : callback) (m : machine) :
  closed (hst m) = false ->
  run_task rejects Enyo (Transaction (QueriesBody qs o DEBUG) (Some ecb)) m =
  let sts := resolved qs [] in
  let run := engine_run rejects (store (hst m)) sts in
  let evs := (batch_events DEBUG sts ++ fst run)%list in
  match snd run with
  | None => fire Enyo (Some ecb) (add_events (evs ++ [RolledBack]) m)
  | Some w =>
      match sts with
      | [] => add_events [Committed] (with_store w m)
      | _ :: _ =>
          match call Enyo (onSuccess o) (add_events evs m) with
          | (Normal _, m') => add_events [Committed] (with_store w m')
          | (Throw _, m') => fire Enyo (Some ecb) (add_events [RolledBack] m')
          end
      end
  end.
Proof.
  intros Hc. cbv zeta. unfold run_task. rewrite Hc.
  unfold run_transaction. cbn [run_body]. rewrite queriesBody_enyo.
  rewrite run_batch. change (store (hst (add_events ?evs m))) with (store (hst m)).
  set (sts := resolved qs []).
  destruct (snd (engine_run rejects (store (hst m)) sts)) as [w|].
  - destruct sts as [|st rest].
    + cbn [batch_events fire]. rewrite !add_events_nil. reflexivity.
    + rewrite add_events_app.
      destruct (call Enyo (onSuccess o) _) as [[u|e] m']; reflexivity.
  - unfold fail_transaction. rewrite !add_events_app, <- app_assoc.
    reflexivity.
Qed.

(** X12: the structure batch is refused.  The statements of the plan were handed
    over in plan order, in one transaction; the engine stopped at the one it
    refused; the transaction was rolled back and the error callback of the
    caller was called; nothing else was ever submitted, so the store is as it
    was and no [INSERT] for the inline data was issued. *)
Theorem setSchema_enyo_structure_refused (schema : schema_arg) (opts : options)
  (m : machine) (fuel : nat) :
  _db (this m) = Some OpenedDatabase ->
  closed (hst m) = false ->
  pending m = [] ->
  quiet (onError (_getOptions opts None)) = true ->
  let sts := map without_values (structure_statements (items_of schema)) in
  let run := engine_run rejects (store (hst m)) sts in
  snd run = None ->
  settle rejects Enyo (S fuel) (snd (setSchema Enyo schema opts m)) =
  add_events
    ([HostTransaction] ++ batch_events (debug (this m)) sts ++ fst run
     ++ [RolledBack] ++ callback_events (onError (_getOptions opts None))) m.
Proof.
  intros Hdb Hc Hp Hq. cbv zeta. intros Hrun.
  rewrite (setSchema_enyo_submits schema opts m Hdb). cbn [snd].
  rewrite Hp. cbn [settle step pending app this hst trace].
  change {| this := this m; hst := hst m; pending := [];
            trace := (trace m ++ [HostTransaction])%list |}
    with (add_events [HostTransaction]
            {| this := this m; hst := hst m; pending := [];
               trace := trace m |}).
  replace {| this := this m; hst := hst m; pending := []; trace := trace m |}
    with m by (rewrite <- Hp; symmetry; apply machine_eta).
  rewrite enyo_batch by exact Hc. cbv zeta.
  change (store (hst (add_events [HostTransaction] m))) with (store (hst m)).
  change (debug (this (add_events [HostTransaction] m))) with (debug (this m)).
  rewrite resolved_strings. fold without_values. rewrite Hrun.
  unfold fire. rewrite (call_quiet Enyo _ _ Hq), !add_events_app.
  rewrite settle_idle by exact Hp.
  rewrite <- !app_assoc. reflexivity.
Qed.

(** The structure batch is accepted and the plan carries rows.  After the
    first transaction the store holds the structure statements, and the one
    thing pending is the data batch: the [INSERT] statements of the rows in
    plan order, with the callbacks of the caller.  It was submitted from the
    callback of the last structure statement. *)
Theorem setSchema_enyo_structure_accepted (schema : schema_arg) (opts : options)
  (m : machine) (w : list statement) :
  _db (this m) = Some OpenedDatabase ->
  closed (hst m) = false ->
  pending m = [] ->
  structure_statements (items_of schema) <> [] ->
  inline_data (items_of schema) <> [] ->
  let sts := map without_values (structure_statements (items_of schema)) in
  let run := engine_run rejects (store (hst m)) sts in
  snd run = Some w ->
  settle rejects Enyo 1 (snd (setSchema Enyo schema opts m)) =
  {| this := this m;
     hst := {| closed := false; version := version (hst m); store := w |};
     pending :=
       [Transaction
          (QueriesBody
             (map QObject (insert_statements (inline_data (items_of schema))))
             {| values_of := None;
                onSuccess := onSuccess (_getOptions opts None);
                onError := onError (_getOptions opts None) |}
             (debug (this m)))
          (Some (onError (_getOptions opts None)))];
     trace :=
       (trace m ++ [HostTransaction] ++ batch_events (debug (this m)) sts
        ++ fst run ++ [HostTransaction; Committed])%list |}.
Proof.
  intros Hdb Hc Hp Hs Hd. cbv zeta. intros Hrun.
  rewrite (setSchema_enyo_submits schema opts m Hdb). cbn [snd].
  rewrite Hp. cbn [settle step pending app this hst trace].
  change {| this := this m; hst := hst m; pending := [];
            trace := (trace m ++ [HostTransaction])%list |}
    with (add_events [HostTransaction]
            {| this := this m; hst := hst m; pending := [];
               trace := trace m |}).
  replace {| this := this m; hst := hst m; pending := []; trace := trace m |}
    with m by (rewrite <- Hp; symmetry; apply machine_eta).
  rewrite enyo_batch by exact Hc. cbv zeta.
  change (store (hst (add_events [HostTransaction] m))) with (store (hst m)).
  change (debug (this (add_events [HostTransaction] m))) with (debug (this m)).
  rewrite resolved_strings. fold without_values. rewrite Hrun.
  destruct (structure_statements (items_of schema)) as [|s0 rest] eqn:Hst;
    [congruence|].
  cbn [map]. rewrite add_events_app.
  unfold structure_options.
  destruct (inline_data (items_of schema)) as [|t0 tables] eqn:Hdat;
    [congruence|].
  cbn [onSuccess bind_insertData call].
  rewrite insertData_enyo_submits by exact Hdb.
  unfold add_events, with_store.
  cbn [this hst pending trace closed version store _getOptions opt_values
       opt_onSuccess opt_onError onSuccess onError values_of].
  rewrite Hp, Hc. cbn [app]. rewrite <- !app_assoc. cbn [app].
  rewrite <- ?app_assoc. reflexivity.
Qed.

(** X14: a plan with rows and without any structure statement: the transaction
    is empty, so the callback that starts the data batch is attached to no
    statement; the transaction commits and nothing is ever inserted. *)
Theorem setSchema_enyo_data_only (schema : schema_arg) (opts : options)
  (m : machine) (fuel : nat) :
  _db (this m) = Some OpenedDatabase ->
  closed (hst m) = false ->
  pending m = [] ->
  structure_statements (items_of schema) = [] ->
  settle rejects Enyo (S fuel) (snd (setSchema Enyo schema opts m)) =
  add_events [HostTransaction; Committed] m.
Proof.
  intros Hdb Hc Hp Hs.
  rewrite (setSchema_enyo_submits schema opts m Hdb). cbn [snd].
  rewrite Hp, Hs. cbn [settle step pending app this hst trace map].
  change {| this := this m; hst := hst m; pending := [];
            trace := (trace m ++ [HostTransaction])%list |}
    with (add_events [HostTransaction]
            {| this := this m; hst := hst m; pending := [];
               trace := trace m |}).
  replace {| this := this m; hst := hst m; pending := []; trace := trace m |}
    with m by (rewrite <- Hp; symmetry; apply machine_eta).
  rewrite enyo_batch by exact Hc. cbv zeta.
  cbn [resolved engine_run fst snd batch_events app].
  rewrite settle_idle by exact Hp.
  unfold with_store, add_events.
  cbn [this hst pending trace closed version store].
  rewrite <- app_assoc.
  destruct m as [d [c v s] p t]. cbn in *. reflexivity.
Qed.

End Phases.

Section DataPhase.

Variable rejects : list statement -> statement -> bool.

(** X13: both batches are accepted.  The trace shows the order: the structure
    statements inside the first transaction; the second transaction,
    submitted before the first one commits, starts after that commit; then
    the [INSERT] statements, the success callback of the caller after the
    last of them, and the second commit. *)
Theorem setSchema_enyo_both_phases (schema : schema_arg) (opts : options)
  (m : machine) (w w' : list statement) (fuel : nat) :
  _db (this m) = Some OpenedDatabase ->
  closed (hst m) = false ->
  pending m = [] ->
  structure_statements (items_of schema) <> [] ->
  insert_statements (inline_data (items_of schema)) <> [] ->
  quiet (onSuccess (_getOptions opts None)) = true ->
  let sts := map without_values (structure_statements (items_of schema)) in
  let ins := map with_values (insert_statements (inline_data (items_of schema))) in
  let run := engine_run rejects (store (hst m)) sts in
  let run' := engine_run rejects w ins in
  snd run = Some w ->
  snd run' = Some w' ->
  settle rejects Enyo (S (S fuel)) (snd (setSchema Enyo schema opts m)) =
  {| this := this m;
     hst := {| closed := false; version := version (hst m); store := w' |};
     pending := [];
     trace :=
       (trace m
        ++ [HostTransaction] ++ batch_events (debug (this m)) sts ++ fst run
        ++ [HostTransaction; Committed]
        ++ batch_events (debug (this m)) ins ++ fst run'
        ++ callback_events (onSuccess (_getOptions opts None))
        ++ [Committed])%list |}.
Proof.
  intros Hdb Hc Hp Hs Hi Hq. cbv zeta. intros Hrun Hrun'.
  assert (Hd : inline_data (items_of schema) <> [])
    by (intros E; rewrite E in Hi; now apply Hi).
  pose proof (@setSchema_enyo_structure_accepted rejects schema opts m w
                Hdb Hc Hp Hs Hd Hrun) as H1.
  cbv zeta in H1.
  change (settle rejects Enyo (S (S fuel)) (snd (setSchema Enyo schema opts m)))
    with (match step rejects Enyo (snd (setSchema Enyo schema opts m)) with
          | None => snd (setSchema Enyo schema opts m)
          | Some m' => settle rejects Enyo (S fuel) m'
          end).
  change (settle rejects Enyo 1 (snd (setSchema Enyo schema opts m)))
    with (match step rejects Enyo (snd (setSchema Enyo schema opts m)) with
          | None => snd (setSchema Enyo schema opts m)
          | Some m' => m'
          end) in H1.
  destruct (step rejects Enyo (snd (setSchema Enyo schema opts m))) as [m1|] eqn:E1.
  - subst m1. cbn [settle step pending].
    rewrite enyo_batch by reflexivity. cbv zeta.
    cbn [hst store this]. rewrite resolved_objects, Hrun'.
    destruct (insert_statements (inline_data (items_of schema))) as [|q qs] eqn:Hq';
      [congruence|].
    cbn [map onSuccess]. rewrite (call_quiet Enyo _ _ Hq).
    rewrite settle_idle by reflexivity.
    unfold add_events, with_store.
    cbn [this hst pending trace closed version store].
    rewrite <- !app_assoc. cbn [app]. rewrite <- ?app_assoc. reflexivity.
  - unfold step in E1. rewrite (setSchema_enyo_submits schema opts m Hdb) in E1.
    cbn [snd pending] in E1. rewrite Hp in E1. discriminate.
Qed.

End DataPhase.

(** The three theorems above on the plan of the specification's example. *)
Example setSchema_enyo_refused_example :
  settle (rejects_text "ALTER TABLE missing ADD COLUMN c TEXT") Enyo 3
    (snd (setSchema Enyo refused_plan caller_options (opened "1" false)))
  = {| this := this (opened "1" false);
       hst := hst (opened "1" false);
       pending := [];
       trace :=
         [HostTransaction;
          ExecuteSql "ALTER TABLE missing ADD COLUMN c TEXT" [];
          ExecuteSql "CREATE TABLE IF NOT EXISTS t (id INTEGER)" [];
          StatementFailed "ALTER TABLE missing ADD COLUMN c TEXT" [];
          RolledBack; Called "failed"] |}.
Proof.
  rewrite (@setSchema_enyo_structure_refused
             (rejects_text "ALTER TABLE missing ADD COLUMN c TEXT")
             refused_plan caller_options (opened "1" false) 2);
    reflexivity.
Defined.

Example setSchema_enyo_both_phases_example :
  settle rejects_nothing Enyo 2
    (snd (setSchema Enyo example_plan caller_options (opened "1" false)))
  = {| this := this (opened "1" false);
       hst := {| closed := false; version := "1";
                 store :=
                   [("CREATE TABLE IF NOT EXISTS t (id INTEGER)", []);
                    ("INSERT INTO t (id) VALUES (?)", [SNum 1]);
                    ("INSERT INTO t (id) VALUES (?)", [SNum 2])] |};
       pending := [];
       trace :=
         [HostTransaction;
          ExecuteSql "CREATE TABLE IF NOT EXISTS t (id INTEGER)" [];
          StatementDone "CREATE TABLE IF NOT EXISTS t (id INTEGER)" [];
          HostTransaction; Committed;
          ExecuteSql "INSERT INTO t (id) VALUES (?)" [SNum 1];
          ExecuteSql "INSERT INTO t (id) VALUES (?)" [SNum 2];
          StatementDone "INSERT INTO t (id) VALUES (?)" [SNum 1];
          StatementDone "INSERT INTO t (id) VALUES (?)" [SNum 2];
          Called "done"; Committed] |}.
Proof.
  rewrite (@setSchema_enyo_both_phases rejects_nothing example_plan
             caller_options (opened "1" false)
             [("CREATE TABLE IF NOT EXISTS t (id INTEGER)", [])]
             [("CREATE TABLE IF NOT EXISTS t (id INTEGER)", []);
              ("INSERT INTO t (id) VALUES (?)", [SNum 1]);
              ("INSERT INTO t (id) VALUES (?)", [SNum 2])] 0);
    try reflexivity; discriminate.
Defined.

Example setSchema_enyo_data_only_example :
  settle rejects_nothing Enyo 3
    (snd (setSchema Enyo
            (SchemaSingle
               (TableObject
                  (mkTable "t" None (Some (RowsObject [("id", SNum 1)])))))
            caller_options (opened "1" false)))
  = {| this := this (opened "1" false);
       hst := hst (opened "1" false);
       pending := [];
       trace := [HostTransaction; Committed] |}.
Proof.
  rewrite (@setSchema_enyo_data_only rejects_nothing _ caller_options
             (opened "1" false) 2);
    reflexivity.
Defined.

(** ** changeVersionWithSchema in the Enyo build *)

Lemma schemaBody_plain (dbg : bool) (schema : list schema_item)
  (query_ : option string) :
  Forall no_callback (snd (fst (schemaBody_loop dbg schema query_))).
Proof.
  revert query_. induction schema as [|item rest IH]; intros query_.
  - constructor.
  - cbn [schemaBody_loop].
    set (q := match item with
              | SqlString s => Some s
              | TableObject t =>
                  match columns t with
                  | Some cols => Some (getCreateTable (table t) cols None)
                  | None => query_
                  end
              end).
    destruct q as [text|]; [|constructor].
    specialize (IH (Some text)).
    destruct (schemaBody_loop dbg rest (Some text)) as [[evs reqs] thrown].
    cbn [fst snd] in *. constructor; [split; reflexivity | exact IH].
Qed.

Lemma changeVersionWithSchema_enyo_submits (newVersion : string)
  (schema : schema_arg) (opts : options) (m : machine) :
  _db (this m) = Some OpenedDatabase ->
  changeVersionWithSchema Enyo newVersion schema opts m =
  (Normal tt,
   {| this := this m; hst := hst m;
      pending :=
        (pending m ++
         [ChangeVersion (_dbVersion (this m)) newVersion
            (SchemaBody (items_of schema))
            (Some (onError (_getOptions opts None)))
            (Some (BoundVersionChanged newVersion
                     (onSuccess (_getOptions opts None))))])%list;
      trace :=
        (trace m ++ [HostChangeVersion (_dbVersion (this m)) newVersion])%list |}).
Proof.
  intros Hdb. unfold changeVersionWithSchema, mbind, lift, get_this.
  assert (Hitems : schema_items
                     (match schema_tested schema with
                      | IsAnArray => true | IsNotAnArray => false end)
                     schema = items_of schema) by now destruct schema.
  cbn [_isArray]. rewrite Hitems, Hdb. reflexivity.
Qed.

Section VersionChange.

Variable rejects : list statement -> statement -> bool.

(** Requests without callbacks: the host only runs the engine. *)
Lemma run_plain (b : build) (reqs : list request) (work : list statement)
  (m : machine) :
  Forall no_callback reqs ->
  run_requests rejects b reqs work m =
  (snd (engine_run rejects work (map statement_of reqs)),
   add_events (fst (engine_run rejects work (map statement_of reqs))) m).
Proof.
  intros H. revert work m.
  induction H as [|r rest [Hs He] _ IH]; intros work m.
  - cbn. now rewrite add_events_nil.
  - destruct r as [text vals s e]. cbn in Hs, He. subst s e.
    cbn [map].
    change (statement_of (mkRequest text vals None None)) with (text, vals).
    rewrite engine_run_cons.
    cbn [run_requests req_sql req_values req_onSuccess req_onError fst snd].
    destruct (rejects work (text, vals)); [reflexivity|].
    cbn [fst snd]. rewrite IH, add_events_app. reflexivity.
Qed.

(** X15: the cached version in the Enyo build.  Right after the call it is what
    it was.  Once the host has answered: if the host committed, its version
    and the cached one are the new version, and the cached one was assigned
    by the success callback, after the commit; if the host refused, both are
    what they were and the error callback of the caller ran. *)
Theorem changeVersionWithSchema_enyo_version (newVersion : string)
  (schema : schema_arg) (opts : options) (m : machine) (fuel : nat) :
  _db (this m) = Some OpenedDatabase ->
  pending m = [] ->
  quiet (onSuccess (_getOptions opts None)) = true ->
  quiet (onError (_getOptions opts None)) = true ->
  let m0 := snd (changeVersionWithSchema Enyo newVersion schema opts m) in
  let m1 := settle rejects Enyo (S fuel) m0 in
  getVersion m0 = getVersion m
  /\ pending m1 = []
  /\ match host_commits rejects m (items_of schema) with
     | Some w =>
         getVersion m1 = Some newVersion
         /\ version (hst m1) = newVersion
         /\ store (hst m1) = w
         /\ exists evs,
              trace m1 =
              (trace m ++ [HostChangeVersion (_dbVersion (this m)) newVersion]
               ++ evs ++ [Committed]
               ++ callback_events (onSuccess (_getOptions opts None)))%list
     | None =>
         getVersion m1 = getVersion m
         /\ hst m1 = hst m
         /\ exists evs,
              trace m1 =
              (trace m ++ [HostChangeVersion (_dbVersion (this m)) newVersion]
               ++ evs ++ [RolledBack]
               ++ callback_events (onError (_getOptions opts None)))%list
     end.
Proof.
  intros Hdb Hp Hqs Hqe. cbv zeta.
  rewrite (changeVersionWithSchema_enyo_submits newVersion schema opts m Hdb).
  cbn [snd]. split; [reflexivity|].
  rewrite Hp. cbn [settle step pending app this hst trace].
  set (m' := {| this := this m; hst := hst m; pending := [];
                trace := (trace m ++
                          [HostChangeVersion (_dbVersion (this m)) newVersion])%list |}).
  assert (Hfail : forall evs,
    let r := fail_transaction Enyo (Some (onError (_getOptions opts None)))
               (add_events evs m') in
    pending (settle rejects Enyo fuel r) = []
    /\ getVersion (settle rejects Enyo fuel r) = getVersion m
    /\ hst (settle rejects Enyo fuel r) = hst m
    /\ exists evs',
         trace (settle rejects Enyo fuel r) =
         (trace m ++ [HostChangeVersion (_dbVersion (this m)) newVersion]
          ++ evs' ++ [RolledBack]
          ++ callback_events (onError (_getOptions opts None)))%list).
  { intros evs. cbv zeta. unfold fail_transaction, fire.
    rewrite (call_quiet Enyo _ _ Hqe), !add_events_app.
    rewrite settle_idle by reflexivity.
    repeat split. exists evs. unfold add_events, m'. cbn [trace].
    now rewrite <- !app_assoc. }
  unfold host_commits, run_task. change (hst m') with (hst m).
  destruct (closed (hst m)) eqn:Hc.
  { specialize (Hfail []). cbv zeta in Hfail. rewrite add_events_nil in Hfail.
    destruct Hfail as (H1 & H2 & H3 & H4). auto. }
  destruct (_dbVersion (this m)) as [v|] eqn:Hv.
  2:{ specialize (Hfail []). cbv zeta in Hfail. rewrite add_events_nil in Hfail.
      destruct Hfail as (H1 & H2 & H3 & H4). auto. }
  destruct (String.eqb v (version (hst m))) eqn:Hver.
  2:{ specialize (Hfail []). cbv zeta in Hfail. rewrite add_events_nil in Hfail.
      destruct Hfail as (H1 & H2 & H3 & H4). auto. }
  unfold run_transaction. cbn [run_body]. change (this m') with (this m).
  pose proof (schemaBody_plain (debug (this m)) (items_of schema) None) as Hplain.
  destruct (schemaBody_loop (debug (this m)) (items_of schema) None)
    as [[evs reqs] thrown].
  cbn [fst snd] in Hplain.
  destruct thrown as [e|].
  { destruct (Hfail evs) as (H1 & H2 & H3 & H4). auto. }
  rewrite (run_plain Enyo _ _ Hplain).
  change (store (hst (add_events evs m'))) with (store (hst m)).
  destruct (engine_run rejects (store (hst m)) (map statement_of reqs))
    as [evs' [w|]]; cbn [fst snd].
  - unfold fire. cbn [call]. unfold _versionChanged, mbind, get_this, set_this.
    cbn [add_events this hst pending trace fst snd].
    rewrite (call_quiet Enyo _ _ Hqs).
    rewrite settle_idle by reflexivity.
    unfold add_events, getVersion.
    cbn [this hst pending trace _dbVersion version store m'].
    repeat split. exists (evs ++ evs')%list.
    now rewrite <- !app_assoc.
  - rewrite add_events_app. destruct (Hfail (evs ++ evs')%list)
      as (H1 & H2 & H3 & H4). auto.
Qed.

End VersionChange.

(** A change the host commits and one it refuses. *)
Example changeVersionWithSchema_enyo_commit_example :
  let call_ :=
    changeVersionWithSchema Enyo "2"
      (SchemaSingle (SqlString "ALTER TABLE t ADD COLUMN c TEXT"))
      caller_options (opened "1" false) in
  getVersion (snd call_) = Some "1"
  /\ getVersion (settle rejects_nothing Enyo 1 (snd call_)) = Some "2"
  /\ trace (settle rejects_nothing Enyo 1 (snd call_))
     = [HostChangeVersion (Some "1") "2";
        ExecuteSql "ALTER TABLE t ADD COLUMN c TEXT" [];
        StatementDone "ALTER TABLE t ADD COLUMN c TEXT" [];
        Committed; Called "done"].
Proof. repeat split. Qed.

Example changeVersionWithSchema_enyo_refusal_example :
  let call_ :=
    changeVersionWithSchema Enyo "2"
      (SchemaSingle (SqlString "ALTER TABLE missing ADD COLUMN c TEXT"))
      caller_options (opened "1" false) in
  let m' :=
    settle (rejects_text "ALTER TABLE missing ADD COLUMN c TEXT") Enyo 1
      (snd call_) in
  getVersion m' = Some "1"
  /\ version (hst m') = "1"
  /\ trace m'
     = [HostChangeVersion (Some "1") "2";
        ExecuteSql "ALTER TABLE missing ADD COLUMN c TEXT" [];
        StatementFailed "ALTER TABLE missing ADD COLUMN c TEXT" [];
        RolledBack; Called "failed"].
Proof. repeat split. Qed.

(** ** The standalone build on the schema paths (C2, C5) *)

(** What [_bind] makes of the two follow-up callbacks in the standalone
    build: the bound arguments are gone, so [insertData] would be applied to
    the arguments of the host, and [_versionChanged] would store [undefined]
    and call [undefined]. *)
Lemma standalone_bind_drops_arguments :
  bind_insertData Standalone [mkTable "t" None (Some (RowsObject []))]
    (_getOptions no_options None) = UnboundInsertData
  /\ call Standalone (bind_versionChanged Standalone "2" (UserFunction "done"))
       (opened "1" false)
     = (Throw (TypeError "callback"),
        {| this := {| _db := Some OpenedDatabase; _dbVersion := None;
                      debug := false |};
           hst := hst (opened "1" false);
           pending := [];
           trace := [] |}).
Proof. split; reflexivity. Qed.

(** C2 on the standalone build: [setSchema] throws at its first statement,
    the array test, so the object and the host stay as they were: no
    structure batch and no data batch is ever submitted.  On the plan of the
    specification's example nothing reaches the store, where the Enyo build
    stores the [CREATE TABLE] and then the two [INSERT]. *)
Theorem setSchema_standalone_reaches_no_batch (schema : schema_arg)
  (opts : options) (m : machine) :
  setSchema Standalone schema opts m = (Throw (ReferenceError "it"), m)
  /\ settle rejects_nothing Standalone 2
       (snd (setSchema Standalone example_plan no_options (opened "1" false)))
     = opened "1" false
  /\ store (hst (settle rejects_nothing Enyo 2
                   (snd (setSchema Enyo example_plan no_options
                           (opened "1" false)))))
     = [("CREATE TABLE IF NOT EXISTS t (id INTEGER)", []);
        ("INSERT INTO t (id) VALUES (?)", [SNum 1]);
        ("INSERT INTO t (id) VALUES (?)", [SNum 2])].
Proof. repeat split. Qed.

(** C5 on the standalone build: [changeVersionWithSchema] throws at the array
    test, before the host is asked for anything, so the cached version never
    becomes the new one, even with a host that would commit.  On the same
    call the Enyo build ends with the new version, on the host and in the
    cache. *)
Theorem changeVersionWithSchema_standalone_never_updates (newVersion : string)
  (schema : schema_arg) (opts : options) (m : machine) :
  changeVersionWithSchema Standalone newVersion schema opts m
    = (Throw (ReferenceError "it"), m)
  /\ getVersion
       (settle rejects_nothing Standalone 1
          (snd (changeVersionWithSchema Standalone "2"
                  (SchemaSingle (SqlString "CREATE TABLE t (id INTEGER)"))
                  no_options (opened "1" false))))
     = Some "1"
  /\ (let m' :=
        settle rejects_nothing Enyo 1
          (snd (changeVersionWithSchema Enyo "2"
                  (SchemaSingle (SqlString "CREATE TABLE t (id INTEGER)"))
                  no_options (opened "1" false))) in
      getVersion m' = Some "2" /\ version (hst m') = "2").
Proof. repeat split. Qed.

(** ** close (C7) *)

Lemma close_marks_host (m : machine) :
  _db (this m) = Some OpenedDatabase ->
  close m =
  (Normal tt,
   {| this := this m;
      hst := {| closed := true; version := version (hst m);
                store := store (hst m) |};
      pending := pending m;
      trace := (trace m ++ [HostClose])%list |}).
Proof.
  intros Hdb. unfold close, mbind, get_this, get_host. now rewrite Hdb.
Qed.

(** C7, what the operations do on a handle after [close()]: [close] tells
    the host and leaves [_db] in place, so the test [!this._db] of [query]
    and [queries] still passes and the version methods find their
    connection: each operation returns normally and hands its transaction to
    the closed connection ([setSchema] and [insertData] go through
    [queries]; they are taken in the Enyo build, where they get that far). *)
Theorem closed_handle_still_reaches_host (b : build) (sql_arg : query_arg)
  (qs : list query_arg) (schema : schema_arg) (tables : list table_def)
  (opts : options) (newVersion : string) (m : machine) :
  _db (this m) = Some OpenedDatabase ->
  let m1 := snd (close m) in
  fst (close m) = Normal tt
  /\ closed (hst m1) = true
  /\ _db (this m1) = Some OpenedDatabase
  /\ fst (query b sql_arg opts m1) = Normal tt
  /\ trace (snd (query b sql_arg opts m1))
     = (trace m ++ [HostClose; HostTransaction])%list
  /\ fst (queries b qs opts m1) = Normal tt
  /\ trace (snd (queries b qs opts m1))
     = (trace m ++ [HostClose; HostTransaction])%list
  /\ fst (changeVersion newVersion None m1) = Normal tt
  /\ trace (snd (changeVersion newVersion None m1))
     = (trace m ++
        [HostClose; HostChangeVersion (_dbVersion (this m)) newVersion])%list
  /\ fst (setSchema Enyo schema opts m1) = Normal tt
  /\ trace (snd (setSchema Enyo schema opts m1))
     = (trace m ++ [HostClose; HostTransaction])%list
  /\ fst (insertData Enyo (DataArray tables) opts m1) = Normal tt
  /\ trace (snd (insertData Enyo (DataArray tables) opts m1))
     = (trace m ++ [HostClose; HostTransaction])%list
  /\ fst (changeVersionWithSchema Enyo newVersion schema opts m1) = Normal tt
  /\ trace (snd (changeVersionWithSchema Enyo newVersion schema opts m1))
     = (trace m ++
        [HostClose; HostChangeVersion (_dbVersion (this m)) newVersion])%list.
Proof.
  intros Hdb. cbv zeta. rewrite (close_marks_host m Hdb). cbn [fst snd].
  set (m1 := {| this := this m;
                hst := {| closed := true; version := version (hst m);
                          store := store (hst m) |};
                pending := pending m;
                trace := (trace m ++ [HostClose])%list |}).
  assert (Hdb1 : _db (this m1) = Some OpenedDatabase) by exact Hdb.
  rewrite (query_submits b sql_arg opts m1 Hdb1).
  rewrite (queries_submits b qs opts m1 Hdb1).
  rewrite (changeVersion_submits newVersion m1 Hdb1).
  rewrite (setSchema_enyo_submits schema opts m1 Hdb1).
  rewrite (insertData_enyo_submits tables opts m1 Hdb1).
  rewrite (changeVersionWithSchema_enyo_submits newVersion schema opts m1 Hdb1).
  cbn [fst snd trace hst closed this m1].
  rewrite <- !app_assoc. repeat split. exact Hdb.
Qed.

Lemma closed_handle_still_reaches_host_witness :
  let m := opened "1" false in
  let m1 := snd (close m) in
  let sql_arg := QString "SELECT * FROM t" in
  fst (close m) = Normal tt
  /\ closed (hst m1) = true
  /\ _db (this m1) = Some OpenedDatabase
  /\ fst (query Standalone sql_arg no_options m1) = Normal tt
  /\ trace (snd (query Standalone sql_arg no_options m1))
     = (trace m ++ [HostClose; HostTransaction])%list
  /\ fst (queries Standalone [sql_arg] no_options m1) = Normal tt
  /\ trace (snd (queries Standalone [sql_arg] no_options m1))
     = (trace m ++ [HostClose; HostTransaction])%list
  /\ fst (changeVersion "2" None m1) = Normal tt
  /\ trace (snd (changeVersion "2" None m1))
     = (trace m ++ [HostClose; HostChangeVersion (_dbVersion (this m)) "2"])%list
  /\ fst (setSchema Enyo example_plan no_options m1) = Normal tt
  /\ trace (snd (setSchema Enyo example_plan no_options m1))
     = (trace m ++ [HostClose; HostTransaction])%list
  /\ fst (insertData Enyo (DataArray []) no_options m1) = Normal tt
  /\ trace (snd (insertData Enyo (DataArray []) no_options m1))
     = (trace m ++ [HostClose; HostTransaction])%list
  /\ fst (changeVersionWithSchema Enyo "2" example_plan no_options m1)
     = Normal tt
  /\ trace (snd (changeVersionWithSchema Enyo "2" example_plan no_options m1))
     = (trace m ++ [HostClose; HostChangeVersion (_dbVersion (this m)) "2"])%list.
Proof.
  apply (@closed_handle_still_reaches_host Standalone
           (QString "SELECT * FROM t") [QString "SELECT * FROM t"]
           example_plan [] no_options "2" (opened "1" false)).
  reflexivity.
Defined.

(** * Further properties *)

(** ** The builders, rendered *)

(** X1: for a row with at least one key, [getInsert] renders
    [INSERT INTO table (k1, k2, ...) VALUES (?, ?, ...)]: the keys joined with
    a comma and a space in iteration order, one mark per key joined the same
    way, and the values of the row in that order. *)
Theorem getInsert_renders (tableName : string) (data : mapping) :
  data <> [] ->
  getInsert tableName data =
  {| sql := "INSERT INTO " ++ tableName ++ " ("
            ++ Str.join ", " (map fst data) ++ ") VALUES ("
            ++ Str.join ", " (map mark data) ++ ")";
     values := map snd data |}.
Proof.
  intros Hd. rewrite (getInsert_closed tableName Hd). reflexivity.
Qed.

Lemma getInsert_renders_witness :
  getInsert "notes" [("id", SNum 7); ("title", SStr "first"); ("body", SNull)] =
  {| sql := "INSERT INTO notes (id, title, body) VALUES (?, ?, ?)";
     values := [SNum 7; SStr "first"; SNull] |}.
Proof.
  apply (@getInsert_renders "notes"
           [("id", SNum 7); ("title", SStr "first"); ("body", SNull)]).
  discriminate.
Defined.

(** X2: [getUpdate] renders the [SET] clauses of the row, joined with commas,
    before the [WHERE] clauses of the predicate, joined with [AND], and binds
    the values of the row before those of the predicate; [getDelete] renders
    the [WHERE] clauses alone.  Every clause is [key = ?], in iteration
    order. *)
Theorem getUpdate_getDelete_render (tableName : string) (data where_ : mapping) :
  getUpdate tableName data where_ =
    {| sql := "UPDATE " ++ tableName ++ " SET "
              ++ Str.join ", " (map clause data)
              ++ " WHERE " ++ Str.join " AND " (map clause where_);
       values := (map snd data ++ map snd where_)%list |}
  /\ getDelete tableName where_ =
       {| sql := "DELETE FROM " ++ tableName ++ " WHERE "
                 ++ Str.join " AND " (map clause where_);
          values := map snd where_ |}.
Proof.
  split.
  - rewrite getUpdate_closed. f_equal. rewrite !append_assoc. reflexivity.
  - apply getDelete_closed.
Qed.

Lemma getSelect_cases (tableName : string) (cols : columns_arg)
  (where_ : option mapping) :
  let q := {| sql := "SELECT " ++ column_list cols ++ " FROM " ++ tableName
                     ++ where_text where_;
              values := where_values where_ |} in
  getSelect Enyo tableName cols where_ = Normal q
  /\ getSelect Standalone tableName cols where_ =
     if selects_all cols then Normal q else Throw (ReferenceError "it").
Proof.
  cbv zeta. split.
  - destruct cols as [| |s|names]; try destruct s as [|a s];
      unfold getSelect; cbn [_isArray columns_tested bind column_list];
      rewrite ?push_loop, ?app_nil_l, ?map_id;
      apply (getSelect_with Enyo).
  - destruct cols as [| |s|names]; try destruct s as [|a s];
      unfold getSelect;
      cbn [_isArray columns_tested bind column_list selects_all];
      try reflexivity; apply (getSelect_with Standalone).
Qed.

(** X3: [getSelect], in full.  The Enyo build always returns: the column
    list is ['*'] for [null] and the empty string, the names joined for an
    array, and empty for anything else (a missing argument, a string that is
    not empty); the [WHERE] part and the values come from the predicate when
    one is given.  The standalone build returns the same statement when the
    columns are [null] or the empty string, and throws for every other
    argument, because it then calls the array test. *)
Theorem getSelect_by_build (tableName : string) (cols : columns_arg)
  (where_ : option mapping) :
  let q := {| sql := "SELECT " ++ column_list cols ++ " FROM " ++ tableName
                     ++ where_text where_;
              values := where_values where_ |} in
  getSelect Enyo tableName cols where_ = Normal q
  /\ getSelect Standalone tableName cols where_ =
     if selects_all cols then Normal q else Throw (ReferenceError "it").
Proof. exact (getSelect_cases tableName cols where_). Qed.

Lemma count_names (names : list string) :
  forallb no_mark names = true ->
  list_sum (map (Str.count "?") names) = 0.
Proof.
  induction names as [|n names IH]; [reflexivity|].
  cbn [forallb]. intros H. apply andb_prop in H. destruct H as [Hn Hr].
  cbn [map].
  change (list_sum (Str.count "?" n :: map (Str.count "?") names))
    with (Str.count "?" n + list_sum (map (Str.count "?") names)).
  now rewrite (no_mark_count _ Hn), (IH Hr).
Qed.

Lemma column_list_count (cols : columns_arg) :
  no_mark_columns cols = true -> Str.count "?" (column_list cols) = 0.
Proof.
  destruct cols as [| |s|names]; try destruct s as [|a s]; try reflexivity.
  cbn [no_mark_columns column_list]. intros H.
  rewrite count_join by reflexivity. now apply count_names.
Qed.

(** X4: when neither the table name, nor a column name, nor a key of the
    predicate contains a ['?'], a statement returned by [getSelect] has as
    many ['?'] in its text as it has values: one per key of the predicate,
    in iteration order, and none without a predicate. *)
Theorem getSelect_placeholders (b : build) (tableName : string)
  (cols : columns_arg) (where_ : option mapping) (q : DatabaseQuery) :
  getSelect b tableName cols where_ = Normal q ->
  no_mark tableName = true ->
  no_mark_columns cols = true ->
  no_mark_keys (predicate_entries where_) = true ->
  placeholders q = List.length (values q)
  /\ values q = map snd (predicate_entries where_).
Proof.
  intros Hq Ht Hc Hw.
  assert (E : q = {| sql := "SELECT " ++ column_list cols ++ " FROM "
                            ++ tableName ++ where_text where_;
                     values := where_values where_ |}).
  { destruct (getSelect_cases tableName cols where_) as [He Hs]. cbv zeta in *.
    destruct b.
    - rewrite Hs in Hq. destruct (selects_all cols); congruence.
    - congruence. }
  subst q. unfold placeholders. cbn [sql values].
  rewrite !count_append, (no_mark_count _ Ht), (column_list_count _ Hc).
  destruct where_ as [w|]; cbn [where_text where_values predicate_entries] in *.
  - rewrite !count_append, count_join by reflexivity.
    rewrite (count_clauses _ Hw), length_map. split; [simpl; lia | reflexivity].
  - split; reflexivity.
Qed.

Lemma getSelect_placeholders_witness :
  let q := {| sql := "SELECT id, title FROM notes WHERE folder = ? AND done = ?";
              values := [SStr "inbox"; SNum 0] |} in
  placeholders q = List.length (values q)
  /\ values q = map snd [("folder", SStr "inbox"); ("done", SNum 0)].
Proof.
  apply (@getSelect_placeholders Enyo "notes" (ColumnsArray ["id"; "title"])
           (Some [("folder", SStr "inbox"); ("done", SNum 0)]));
    reflexivity.
Defined.

(** X5: [getCreateTable] with the flag given: [IF NOT EXISTS] is there
    exactly when the flag is true, and a flag left out counts as true.  An
    empty column array is not refused: the parentheses stay empty. *)
Theorem getCreateTable_flag (tableName : string) (cols : list column_def)
  (flag : bool) :
  getCreateTable tableName cols (Some flag) =
    "CREATE TABLE " ++ (if flag then "IF NOT EXISTS " else "") ++ tableName
    ++ " (" ++ Str.join ", " (map column_text cols) ++ ")"
  /\ getCreateTable tableName cols None = getCreateTable tableName cols (Some true)
  /\ getCreateTable tableName [] (Some flag) =
     "CREATE TABLE " ++ (if flag then "IF NOT EXISTS " else "") ++ tableName
     ++ " ()".
Proof.
  assert (H : forall cs,
    getCreateTable tableName cs (Some flag) =
    "CREATE TABLE " ++ (if flag then "IF NOT EXISTS " else "") ++ tableName
    ++ " (" ++ Str.join ", " (map column_text cs) ++ ")").
  { intros cs. unfold getCreateTable. rewrite getCreateTable_loop, app_nil_l.
    destruct flag; rewrite ?append_assoc; reflexivity. }
  repeat split.
  - apply H.
  - rewrite (H []). reflexivity.
Qed.

(** ** What [query] makes of the text *)

Lemma trim_left_head (s : string) :
  Str.trim_left s = ""
  \/ exists a r, Str.trim_left s = String a r /\ Str.is_space a = false.
Proof.
  induction s as [|a s IH]; [now left|].
  cbn [Str.trim_left]. destruct (Str.is_space a) eqn:Ha; [exact IH|].
  right. now exists a, s.
Qed.

Lemma trim_right_head (a : ascii) (r : string) :
  Str.is_space a = false -> exists r', Str.trim_right (String a r) = String a r'.
Proof.
  intros Ha. cbn [Str.trim_right].
  destruct (Str.trim_right r) as [|x r'].
  - rewrite Ha. now exists "".
  - now exists (String x r').
Qed.

Lemma trim_right_last (s : string) :
  Str.trim_right s = ""
  \/ exists z, Str.last (Str.trim_right s) = Some z /\ Str.is_space z = false.
Proof.
  induction s as [|a s IH]; [now left|].
  cbn [Str.trim_right].
  destruct (Str.trim_right s) as [|x r].
  - destruct (Str.is_space a) eqn:Ha; [now left|].
    right. now exists a.
  - right. destruct IH as [IH|IH]; [discriminate|]. exact IH.
Qed.

(** A text that neither starts nor ends with white space is left as it is. *)
Lemma trim_trimmed (a z : ascii) (r : string) :
  Str.is_space a = false -> Str.last (String a r) = Some z ->
  Str.is_space z = false -> Str.trim (String a r) = String a r.
Proof.
  intros Ha Hl Hz. unfold Str.trim. cbn [Str.trim_left]. rewrite Ha.
  now apply (@trim_right_fixed (String a r) z).
Qed.

(** What is left after trimming is empty, or starts and ends with
    characters that are not white space. *)
Lemma trim_shape (s : string) :
  Str.trim s = ""
  \/ exists a r z,
       Str.trim s = String a r /\ Str.is_space a = false
       /\ Str.last (String a r) = Some z /\ Str.is_space z = false.
Proof.
  unfold Str.trim.
  destruct (trim_left_head s) as [E|(a & r & E & Ha)]; rewrite E.
  - now left.
  - right. destruct (@trim_right_head a r Ha) as [r' Er].
    destruct (trim_right_last (String a r)) as [E0|(z & Hl & Hz)];
      [rewrite Er in E0; discriminate|].
    rewrite Er in *. now exists a, r', z.
Qed.

(** X6: what [query] does to the text, in full.  The text handed over is
    the trimmed text as it is when that ends with [';'], and the trimmed
    text followed by one [';'] when it ends with anything else; a text that
    is empty or all white space is handed over as the empty text, without
    [';'].  So the step is stable: applied to its own result it changes
    nothing, and a text that already ends with [';'] never gets a second
    one. *)
Theorem terminate_idempotent (text : string) :
  terminate text
    = match Str.last (Str.trim text) with
      | None => ""
      | Some c =>
          if Ascii.eqb c ";" then Str.trim text else Str.trim text ++ ";"
      end
  /\ terminate (terminate text) = terminate text
  /\ (if String.eqb (Str.trim text) ""
      then terminate text = ""
      else Str.last (terminate text) = Some ";"%char).
Proof.
  destruct (trim_shape text) as [E|(a & r & z & E & Ha & Hl & Hz)].
  - assert (Ht : terminate text = "") by (unfold terminate; now rewrite E).
    rewrite Ht, E. now repeat split.
  - split; [|split].
    + unfold terminate. rewrite E, Hl.
      destruct (Z.eqb_spec (Str.lastIndexOf ";" (String a r))
                  (Z.of_nat (String.length (String a r)) - 1)) as [Hs|Hs].
      * apply lastIndexOf_last in Hs; [|discriminate].
        rewrite Hl in Hs. injection Hs as ->. reflexivity.
      * destruct (Ascii.eqb_spec z ";"%char) as [->|Hz']; [|reflexivity].
        exfalso. apply Hs. apply lastIndexOf_last; [discriminate | exact Hl].
    + unfold terminate at 2 3. rewrite E.
      destruct (Z.eqb_spec (Str.lastIndexOf ";" (String a r))
                  (Z.of_nat (String.length (String a r)) - 1)) as [Hs|Hs].
      * unfold terminate. rewrite (@trim_trimmed a z r Ha Hl Hz).
        apply Z.eqb_eq in Hs. now rewrite Hs.
      * unfold terminate.
        change (String a r ++ ";") with (String a (r ++ ";")).
        assert (Hl' : Str.last (String a (r ++ ";")) = Some ";"%char)
          by apply (last_append_char (String a r)).
        rewrite (@trim_trimmed a ";"%char (r ++ ";") Ha Hl' eq_refl).
        assert (Hi : (Str.lastIndexOf ";" (String a (r ++ ";"))
                      = Z.of_nat (String.length (String a (r ++ ";"))) - 1)%Z)
          by (apply lastIndexOf_last; [discriminate | exact Hl']).
        apply Z.eqb_eq in Hi. now rewrite Hi.
    + rewrite E. cbn [String.eqb]. apply terminate_ends. rewrite E. discriminate.
Qed.

(** ** One statement and one batch on the host *)

Lemma submitted_first (m : machine) (evs : list event) :
  pending m = [] ->
  {| this := this m; hst := hst m; pending := [];
     trace := (trace m ++ evs)%list |} = add_events evs m.
Proof. intros Hp. unfold add_events. now rewrite Hp. Qed.

Lemma query_options_merged (sql_arg : query_arg) (opts : options) :
  values_of (query_options sql_arg opts) = Some (query_values sql_arg opts)
  /\ onSuccess (query_options sql_arg opts) = onSuccess (_getOptions opts None)
  /\ onError (query_options sql_arg opts) = onError (_getOptions opts None).
Proof.
  destruct sql_arg as [s|q]; cbn; [|now repeat split].
  destruct (opt_values opts); now repeat split.
Qed.

Section Outcomes.

Variable rejects : list statement -> statement -> bool.

(** X7: one [query] and the host, in both builds.  The statement runs with
    the values of the [DatabaseQuery] when one is passed, else with
    [options.values], else with none.  If the engine refuses it, the error
    callback runs and the transaction is rolled back: the store is as it was.
    If not, the success callback runs, once, and the statement is
    committed.  Never both callbacks. *)
Theorem query_outcome (b : build) (sql_arg : query_arg) (opts : options)
  (m : machine) (fuel : nat) :
  _db (this m) = Some OpenedDatabase ->
  closed (hst m) = false ->
  pending m = [] ->
  quiet (onSuccess (_getOptions opts None)) = true ->
  quiet (onError (_getOptions opts None)) = true ->
  let text := terminate (query_text sql_arg) in
  let vals := query_values sql_arg opts in
  let asked :=
    ([HostTransaction]
     ++ (if debug (this m) then [LoggedSql text vals] else [])
     ++ [ExecuteSql text vals])%list in
  settle rejects b (S fuel) (snd (query b sql_arg opts m)) =
  if rejects (store (hst m)) (text, vals) then
    add_events (asked ++ [StatementFailed text vals]
                ++ callback_events (onError (_getOptions opts None))
                ++ [RolledBack]) m
  else
    add_events (asked ++ [StatementDone text vals]
                ++ callback_events (onSuccess (_getOptions opts None))
                ++ [Committed])
      (with_store (store (hst m) ++ [(text, vals)]) m).
Proof.
  intros Hdb Hc Hp Hqs Hqe. cbv zeta.
  rewrite (query_submits b sql_arg opts m Hdb). cbn [snd].
  rewrite Hp. cbn [settle step pending app this hst trace].
  rewrite (submitted_first m [HostTransaction] Hp).
  destruct (query_options_merged sql_arg opts) as (Hv & Hs & He).
  unfold run_task. change (hst (add_events [HostTransaction] m)) with (hst m).
  rewrite Hc. unfold run_transaction. cbn [run_body].
  rewrite Hv, Hs, He.
  change (this (add_events [HostTransaction] m)) with (this m).
  rewrite add_events_app.
  cbn [run_requests req_sql req_values req_onSuccess req_onError].
  change (store (hst (add_events ?evs m))) with (store (hst m)).
  destruct (rejects (store (hst m))
              (terminate (query_text sql_arg), query_values sql_arg opts)).
  - rewrite add_events_app, (call_quiet b _ _ Hqe). cbn [snd].
    unfold fail_transaction, fire. rewrite !add_events_app.
    rewrite settle_idle by exact Hp.
    rewrite <- !app_assoc. reflexivity.
  - rewrite add_events_app. cbn [call]. rewrite (call_quiet b _ _ Hqs).
    cbn [run_requests fire]. rewrite !add_events_app.
    rewrite settle_idle by exact Hp.
    unfold add_events, with_store.
    cbn [this hst pending trace closed version store].
    rewrite <- !app_assoc. reflexivity.
Qed.

(** X8: one batch of [queries] and the host, in the Enyo build.  All the
    statements are handed over before the first one runs.  A statement given
    as a string runs with the values of the [DatabaseQuery] before it in the
    batch (with none when there is none before it).  The engine stops at the
    first statement it refuses: then nothing is stored and the error callback
    runs after the rollback.  When all pass, the success callback runs after
    the last statement and before the commit. *)
Theorem queries_enyo_outcome (qs : list query_arg) (opts : options)
  (m : machine) (fuel : nat) :
  _db (this m) = Some OpenedDatabase ->
  closed (hst m) = false ->
  pending m = [] ->
  quiet (onSuccess (_getOptions opts None)) = true ->
  quiet (onError (_getOptions opts None)) = true ->
  let sts := resolved qs [] in
  let run := engine_run rejects (store (hst m)) sts in
  let asked :=
    ([HostTransaction] ++ batch_events (debug (this m)) sts ++ fst run)%list in
  settle rejects Enyo (S fuel) (snd (queries Enyo qs opts m)) =
  match snd run with
  | None =>
      add_events (asked ++ [RolledBack]
                  ++ callback_events (onError (_getOptions opts None))) m
  | Some w =>
      add_events
        (asked
         ++ match sts with
            | [] => []
            | _ :: _ => callback_events (onSuccess (_getOptions opts None))
            end
         ++ [Committed]) (with_store w m)
  end.
Proof.
  intros Hdb Hc Hp Hqs Hqe. cbv zeta.
  rewrite (queries_submits Enyo qs opts m Hdb). cbn [snd].
  rewrite Hp. cbn [settle step pending app this hst trace].
  rewrite (submitted_first m [HostTransaction] Hp).
  rewrite enyo_batch by exact Hc. cbv zeta.
  change (store (hst (add_events [HostTransaction] m))) with (store (hst m)).
  destruct (snd (engine_run rejects (store (hst m)) (resolved qs []))) as [w|].
  - destruct (resolved qs []) as [|st rest].
    + rewrite settle_idle by exact Hp.
      unfold add_events, with_store.
      cbn [this hst pending trace closed version store batch_events app].
      rewrite <- !app_assoc. reflexivity.
    + rewrite add_events_app, (call_quiet Enyo _ _ Hqs), add_events_app.
      rewrite settle_idle by exact Hp.
      unfold add_events, with_store.
      cbn [this hst pending trace closed version store].
      rewrite <- !app_assoc. reflexivity.
  - unfold fire. rewrite add_events_app, (call_quiet Enyo _ _ Hqe).
    rewrite add_events_app. rewrite settle_idle by exact Hp.
    rewrite <- !app_assoc. reflexivity.
Qed.

(** X9: an empty batch, in both builds: the transaction commits and neither
    callback of the caller is called, whatever they are. *)
Theorem empty_batch_calls_nothing (b : build) (opts : options) (m : machine)
  (fuel : nat) :
  _db (this m) = Some OpenedDatabase ->
  closed (hst m) = false ->
  pending m = [] ->
  settle rejects b (S fuel) (snd (queries b [] opts m)) =
  add_events [HostTransaction; Committed] m.
Proof.
  intros Hdb Hc Hp.
  rewrite (queries_submits b [] opts m Hdb). cbn [snd].
  rewrite Hp. cbn [settle step pending app this hst trace].
  rewrite (submitted_first m [HostTransaction] Hp).
  unfold run_task. change (hst (add_events [HostTransaction] m)) with (hst m).
  rewrite Hc. unfold run_transaction.
  cbn [run_body queriesBody_loop run_requests fire].
  rewrite add_events_nil. rewrite settle_idle by exact Hp.
  unfold add_events. cbn [this hst pending trace].
  rewrite <- app_assoc. destruct m as [d [c v s] p t]. reflexivity.
Qed.

End Outcomes.

Lemma query_outcome_witness :
  settle rejects_nothing Enyo 1
    (snd (query Enyo
            (QObject {| sql := "  DELETE FROM t WHERE id = ? ";
                        values := [SNum 4] |})
            {| opt_values := Some [SNum 9];
               opt_onSuccess := Some (UserFunction "done");
               opt_onError := Some (UserFunction "failed") |}
            (opened "1" true)))
  = add_events
      [HostTransaction; LoggedSql "DELETE FROM t WHERE id = ?;" [SNum 4];
       ExecuteSql "DELETE FROM t WHERE id = ?;" [SNum 4];
       StatementDone "DELETE FROM t WHERE id = ?;" [SNum 4];
       Called "done"; Committed]
      (with_store [("DELETE FROM t WHERE id = ?;", [SNum 4])]
         (opened "1" true)).
Proof.
  apply (@query_outcome rejects_nothing Enyo
           (QObject {| sql := "  DELETE FROM t WHERE id = ? ";
                       values := [SNum 4] |})
           {| opt_values := Some [SNum 9];
              opt_onSuccess := Some (UserFunction "done");
              opt_onError := Some (UserFunction "failed") |}
           (opened "1" true) 0); reflexivity.
Defined.

Lemma queries_enyo_outcome_witness :
  let q1 := QObject {| sql := "UPDATE t SET a = ? WHERE id = ?";
                       values := [SNum 1; SNum 2] |} in
  settle rejects_nothing Enyo 1
    (snd (queries Enyo [QString "DELETE FROM t"; q1; QString "DELETE FROM u"]
            caller_options (opened "1" false)))
  = {| this := this (opened "1" false);
       hst := {| closed := false; version := "1";
                 store := [("DELETE FROM t", []);
                           ("UPDATE t SET a = ? WHERE id = ?", [SNum 1; SNum 2]);
                           ("DELETE FROM u", [SNum 1; SNum 2])] |};
       pending := [];
       trace := [HostTransaction;
                 ExecuteSql "DELETE FROM t" [];
                 ExecuteSql "UPDATE t SET a = ? WHERE id = ?" [SNum 1; SNum 2];
                 ExecuteSql "DELETE FROM u" [SNum 1; SNum 2];
                 StatementDone "DELETE FROM t" [];
                 StatementDone "UPDATE t SET a = ? WHERE id = ?" [SNum 1; SNum 2];
                 StatementDone "DELETE FROM u" [SNum 1; SNum 2];
                 Called "done"; Committed] |}.
Proof.
  cbv zeta.
  rewrite (@queries_enyo_outcome rejects_nothing
             [QString "DELETE FROM t";
              QObject {| sql := "UPDATE t SET a = ? WHERE id = ?";
                         values := [SNum 1; SNum 2] |};
              QString "DELETE FROM u"]
             caller_options (opened "1" false) 0);
    reflexivity.
Defined.

Lemma empty_batch_calls_nothing_witness :
  settle (rejects_text "x") Standalone 1
    (snd (queries Standalone [] caller_options (opened "1" true)))
  = add_events [HostTransaction; Committed] (opened "1" true).
Proof.
  apply (@empty_batch_calls_nothing (rejects_text "x") Standalone caller_options
           (opened "1" true) 0); reflexivity.
Defined.

(** ** The JSON methods as batches *)

(** X10: in the Enyo build, [insertData] is [queries] on the [INSERT]
    statements of the rows, table after table and row after row, with the
    options of the caller; a single table object counts as an array of one,
    a single row as a list of one, and a table without [data] gives nothing.
    Each statement runs with its own values. *)
Theorem insertData_enyo_is_queries (dat : data_arg) (opts : options)
  (m : machine) :
  let ins := insert_statements (tables_of dat) in
  insertData Enyo dat opts m = queries Enyo (map QObject ins) opts m
  /\ resolved (map QObject ins) [] = map with_values ins.
Proof.
  cbv zeta. split; [|apply resolved_objects].
  assert (H : forall tables,
    (dataQueries <-- lift (insertData_loop Enyo tables []) ;;;
     queries Enyo dataQueries (as_options (_getOptions opts None))) m
    = queries Enyo (map QObject (insert_statements tables)) opts m).
  { intros tables. unfold mbind, lift.
    rewrite insertData_loop_enyo, app_nil_l.
    unfold queries, mbind, get_this. now rewrite merge_twice. }
  destruct dat as [l|t|]; unfold insertData, mbind at 1, lift at 1;
    cbn [_isArray data_tested tables_of]; apply H.
Qed.

(** X11: in the Enyo build, [setSchema] on a plan that carries no rows is
    [queries] on its structure statements, with the options of the caller. *)
Theorem setSchema_enyo_without_rows (schema : schema_arg) (opts : options)
  (m : machine) :
  inline_data (items_of schema) = [] ->
  setSchema Enyo schema opts m =
  queries Enyo (map QString (structure_statements (items_of schema))) opts m.
Proof.
  intros Hd. unfold setSchema, mbind at 1, lift.
  assert (Hitems : schema_items
                     (match schema_tested schema with
                      | IsAnArray => true | IsNotAnArray => false end)
                     schema = items_of schema) by now destruct schema.
  cbn [_isArray]. rewrite Hitems, setSchema_loop, !app_nil_l, Hd.
  cbn [List.length Nat.ltb Nat.leb].
  unfold queries, mbind, get_this. now rewrite merge_twice.
Qed.

Lemma setSchema_enyo_without_rows_witness :
  setSchema Enyo
    (SchemaArray
       [TableObject (mkTable "t" (Some [mkColumn "id" "INTEGER" None]) None);
        SqlString "ALTER TABLE t ADD COLUMN c TEXT"])
    caller_options (opened "1" false)
  = queries Enyo
      [QString "CREATE TABLE IF NOT EXISTS t (id INTEGER)";
       QString "ALTER TABLE t ADD COLUMN c TEXT"]
      caller_options (opened "1" false).
Proof.
  apply (@setSchema_enyo_without_rows
           (SchemaArray
              [TableObject (mkTable "t" (Some [mkColumn "id" "INTEGER" None]) None);
               SqlString "ALTER TABLE t ADD COLUMN c TEXT"])
           caller_options (opened "1" false)).
  reflexivity.
Defined.

(** ** The upgrade callback of changeVersionWithSchema *)

Lemma schemaBody_without_rows (dbg : bool) (schema : list schema_item)
  (query_ : option string) :
  schemaBody_loop dbg (map without_rows schema) query_
  = schemaBody_loop dbg schema query_.
Proof.
  revert query_. induction schema as [|item rest IH]; intros query_;
    [reflexivity|].
  cbn [map schemaBody_loop].
  destruct item as [s|t]; cbn [without_rows columns table].
  - now rewrite IH.
  - destruct (columns t) as [cols|].
    + now rewrite IH.
    + destruct query_ as [text|]; [now rewrite IH | reflexivity].
Qed.

Section Upgrade.

Variable rejects : list statement -> statement -> bool.

(** X16: [changeVersionWithSchema] never inserts the rows a plan carries:
    the host ends in the same state as for the plan without its rows. *)
Theorem changeVersionWithSchema_ignores_rows (newVersion : string)
  (schema : schema_arg) (opts : options) (m : machine) (fuel : nat) :
  _db (this m) = Some OpenedDatabase ->
  pending m = [] ->
  settle rejects Enyo (S fuel)
    (snd (changeVersionWithSchema Enyo newVersion schema opts m))
  = settle rejects Enyo (S fuel)
      (snd (changeVersionWithSchema Enyo newVersion
              (schema_without_rows schema) opts m)).
Proof.
  intros Hdb Hp.
  rewrite !(changeVersionWithSchema_enyo_submits newVersion _ opts m Hdb).
  cbn [snd]. rewrite Hp. cbn [settle step pending app this hst trace].
  assert (Hitems : items_of (schema_without_rows schema)
                   = map without_rows (items_of schema))
    by now destruct schema.
  rewrite Hitems. unfold run_task, run_transaction. cbn [run_body].
  now rewrite schemaBody_without_rows.
Qed.

(** X17: a table object without [columns] in the plan of
    [changeVersionWithSchema].  In first position the upgrade callback
    throws before it queued anything, so the change is rolled back and the
    error callback runs.  Behind another item the statement of that item is
    queued a second time, where [setSchema] has one statement for the same
    plan. *)
Theorem changeVersionWithSchema_item_without_columns (newVersion : string)
  (t : table_def) (item : schema_item) (text : string)
  (rest : list schema_item) (opts : options) (m : machine) (fuel : nat) :
  _db (this m) = Some OpenedDatabase ->
  pending m = [] ->
  quiet (onError (_getOptions opts None)) = true ->
  columns t = None ->
  structure_statements [item] = [text] ->
  settle rejects Enyo (S fuel)
    (snd (changeVersionWithSchema Enyo newVersion
            (SchemaArray (TableObject t :: rest)) opts m))
  = add_events
      ([HostChangeVersion (_dbVersion (this m)) newVersion; RolledBack]
       ++ callback_events (onError (_getOptions opts None))) m
  /\ map statement_of
       (snd (fst (run_body Enyo (this m) (SchemaBody [item; TableObject t]))))
     = [(text, []); (text, [])]
  /\ structure_statements [item; TableObject t] = [text].
Proof.
  intros Hdb Hp Hq Hcols Hitem. repeat split.
  - rewrite (changeVersionWithSchema_enyo_submits newVersion _ opts m Hdb).
    cbn [snd]. rewrite Hp. cbn [settle step pending app this hst trace items_of].
    rewrite (submitted_first m _ Hp).
    assert (E : forall m',
      run_task rejects Enyo
        (ChangeVersion (_dbVersion (this m)) newVersion
           (SchemaBody (TableObject t :: rest))
           (Some (onError (_getOptions opts None)))
           (Some (BoundVersionChanged newVersion
                    (onSuccess (_getOptions opts None))))) m'
      = fail_transaction Enyo (Some (onError (_getOptions opts None))) m').
    { intros m'. unfold run_task.
      destruct (closed (hst m')); [reflexivity|].
      destruct (_dbVersion (this m)) as [v|]; [|reflexivity].
      destruct (String.eqb v (version (hst m'))); [|reflexivity].
      unfold run_transaction. cbn [run_body schemaBody_loop].
      rewrite Hcols. now rewrite add_events_nil. }
    rewrite E. unfold fail_transaction, fire.
    rewrite (call_quiet Enyo _ _ Hq), !add_events_app.
    rewrite settle_idle by exact Hp.
    rewrite <- ?app_assoc. reflexivity.
  - cbn [run_body schemaBody_loop]. rewrite Hcols.
    destruct item as [s|t0]; cbn [structure_statements] in Hitem.
    + injection Hitem as ->. now destruct (debug (this m)).
    + destruct (columns t0) as [cols|]; [|discriminate].
      injection Hitem as ->. now destruct (debug (this m)).
  - cbn [structure_statements] in *. rewrite Hcols.
    destruct item as [s|t0]; [exact Hitem|].
    destruct (columns t0); [exact Hitem | discriminate].
Qed.

End Upgrade.

Lemma changeVersionWithSchema_enyo_version_witness :
  let m0 :=
    snd (changeVersionWithSchema Enyo "2"
           (SchemaSingle (SqlString "ALTER TABLE t ADD COLUMN c TEXT"))
           caller_options (opened "1" false)) in
  let m1 := settle rejects_nothing Enyo 1 m0 in
  getVersion m0 = Some "1"
  /\ pending m1 = []
  /\ getVersion m1 = Some "2"
  /\ version (hst m1) = "2"
  /\ store (hst m1) = [("ALTER TABLE t ADD COLUMN c TEXT", [])].
Proof.
  destruct (@changeVersionWithSchema_enyo_version rejects_nothing "2"
              (SchemaSingle (SqlString "ALTER TABLE t ADD COLUMN c TEXT"))
              caller_options (opened "1" false) 0
              eq_refl eq_refl eq_refl eq_refl) as (H0 & H1 & H2).
  cbv zeta. split; [exact H0|]. split; [exact H1|].
  destruct H2 as (Ha & Hb & Hc & _). repeat split; assumption.
Defined.

Lemma changeVersionWithSchema_ignores_rows_witness :
  settle rejects_nothing Enyo 1
    (snd (changeVersionWithSchema Enyo "2" example_plan caller_options
            (opened "1" false)))
  = {| this := {| _db := Some OpenedDatabase; _dbVersion := Some "2";
                  debug := false |};
       hst := {| closed := false; version := "2";
                 store :=
                   [("CREATE TABLE IF NOT EXISTS t (id INTEGER)", []);
                    ("CREATE TABLE IF NOT EXISTS t (id INTEGER)", [])] |};
       pending := [];
       trace :=
         [HostChangeVersion (Some "1") "2";
          ExecuteSql "CREATE TABLE IF NOT EXISTS t (id INTEGER)" [];
          ExecuteSql "CREATE TABLE IF NOT EXISTS t (id INTEGER)" [];
          StatementDone "CREATE TABLE IF NOT EXISTS t (id INTEGER)" [];
          StatementDone "CREATE TABLE IF NOT EXISTS t (id INTEGER)" [];
          Committed; Called "done"] |}.
Proof.
  rewrite (@changeVersionWithSchema_ignores_rows rejects_nothing "2"
             example_plan caller_options (opened "1" false) 0);
    reflexivity.
Defined.

Lemma changeVersionWithSchema_item_without_columns_witness :
  let rows_only :=
    mkTable "t" None (Some (RowsArray [[("id", SNum 1)]])) in
  settle rejects_nothing Enyo 1
    (snd (changeVersionWithSchema Enyo "2"
            (SchemaArray [TableObject rows_only]) caller_options
            (opened "1" false)))
  = add_events [HostChangeVersion (Some "1") "2"; RolledBack; Called "failed"]
      (opened "1" false)
  /\ map statement_of
       (snd (fst (run_body Enyo (this (opened "1" false))
                    (SchemaBody [SqlString "DROP TABLE u";
                                 TableObject rows_only]))))
     = [("DROP TABLE u", []); ("DROP TABLE u", [])]
  /\ structure_statements [SqlString "DROP TABLE u"; TableObject rows_only]
     = ["DROP TABLE u"].
Proof.
  apply (@changeVersionWithSchema_item_without_columns rejects_nothing "2"
           (mkTable "t" None (Some (RowsArray [[("id", SNum 1)]])))
           (SqlString "DROP TABLE u") "DROP TABLE u" [] caller_options
           (opened "1" false) 0); reflexivity.
Defined.

(** ** changeVersion when the host agrees *)

Lemma version_update_success (b : build) (newVersion : string) (m : machine) :
  fire b (Some (VersionUpdateSuccess newVersion)) m =
  add_events
    (if debug (this m)
     then [Logged ("DATABASE VERSION UPDATE SUCCESS: " ++ newVersion)]
     else []) m.
Proof.
  unfold fire, call, mbind, get_this, emit, ret.
  destruct (debug (this m)); [reflexivity|]. now rewrite add_events_nil.
Qed.

Section VersionCommits.

Variable rejects : list statement -> statement -> bool.

(** The host on a [changeVersion] that expects the version it has. *)
Lemma changeVersion_step (b : build) (d : Database) (h : host) (v : string)
  (rest : list task) (t : list event) :
  closed h = false ->
  step rejects b
    {| this := d; hst := h;
       pending :=
         ChangeVersion (Some (version h)) v EmptyBody
           (Some (VersionUpdateFailed v)) (Some (VersionUpdateSuccess v))
         :: rest;
       trace := t |}
  = Some
      {| this := d;
         hst := {| closed := false; version := v; store := store h |};
         pending := rest;
         trace :=
           (t ++ [Committed]
            ++ (if debug d
                then [Logged ("DATABASE VERSION UPDATE SUCCESS: " ++ v)]
                else []))%list |}.
Proof.
  intros Hc. unfold step. cbn [pending this hst trace]. f_equal.
  unfold run_task. cbn [hst]. rewrite Hc, String.eqb_refl.
  unfold run_transaction. cbn [run_body run_requests this hst pending trace].
  rewrite add_events_nil, version_update_success.
  unfold add_events. cbn [this hst pending trace debug].
  rewrite Hc, <- app_assoc. reflexivity.
Qed.

(** X18: [changeVersion] on an open connection whose database is at the
    cached version: the host commits, and then the database and the cache
    are both at the new version; nothing is stored.  With the old form
    [changeVersion(from, to)] the first argument plays no part: the version
    the host is asked to expect is the cached one.  Two changes in a row,
    both handed over before the host runs, both commit: the second one
    expects the version the first one cached. *)
Theorem changeVersion_commits (b : build) (first : string)
  (second : option string) (next : string) (m : machine) (fuel : nat) :
  _db (this m) = Some OpenedDatabase ->
  closed (hst m) = false ->
  pending m = [] ->
  _dbVersion (this m) = Some (version (hst m)) ->
  let v := match second with Some to => to | None => first end in
  let m1 := settle rejects b (S fuel) (snd (changeVersion first second m)) in
  let m2 :=
    settle rejects b (S (S fuel))
      (snd (changeVersion next None (snd (changeVersion first second m)))) in
  (getVersion m1 = Some v /\ version (hst m1) = v
   /\ store (hst m1) = store (hst m) /\ pending m1 = []
   /\ trace m1 =
      (trace m ++ [HostChangeVersion (Some (version (hst m))) v; Committed]
       ++ (if debug (this m)
           then [Logged ("DATABASE VERSION UPDATE SUCCESS: " ++ v)]
           else []))%list)
  /\ (getVersion m2 = Some next /\ version (hst m2) = next
      /\ store (hst m2) = store (hst m) /\ pending m2 = []).
Proof.
  intros Hdb Hc Hp Hv. cbv zeta.
  set (v := match second with Some to => to | None => first end).
  assert (E : changeVersion first second m = changeVersion v None m)
    by now destruct second.
  rewrite E, (changeVersion_submits v m Hdb). cbn [snd].
  set (m' := {| this := with_version (this m) (Some v); hst := hst m;
                pending := _; trace := _ |}).
  assert (Hdb' : _db (this m') = Some OpenedDatabase) by exact Hdb.
  rewrite (changeVersion_submits next m' Hdb'). cbn [snd].
  unfold m'. cbn [this hst pending trace with_version _db _dbVersion debug].
  rewrite Hp, Hv. cbn [app].
  split.
  - cbn [settle]. rewrite changeVersion_step by exact Hc.
    rewrite settle_idle by reflexivity.
    unfold getVersion. cbn [this hst pending trace _dbVersion version store].
    rewrite <- app_assoc. repeat split.
  - cbn [settle]. rewrite changeVersion_step by exact Hc.
    pose proof (@changeVersion_step b
                  {| _db := _db (this m); _dbVersion := Some next;
                     debug := debug (this m) |}
                  {| closed := false; version := v; store := store (hst m) |}
                  next [] 
                  ((trace m ++ [HostChangeVersion (Some (version (hst m))) v])
                    ++ [HostChangeVersion (Some v) next]
                    ++ [Committed]
                    ++ (if debug (this m)
                        then [Logged ("DATABASE VERSION UPDATE SUCCESS: " ++ v)]
                        else []))%list eq_refl) as H2.
    cbn [version store] in H2.
    match goal with
    | |- context [step rejects b ?x] =>
        replace (step rejects b x) with (step rejects b
          {| this := {| _db := _db (this m); _dbVersion := Some next;
                        debug := debug (this m) |};
             hst := {| closed := false; version := v; store := store (hst m) |};
             pending :=
               [ChangeVersion (Some v) next EmptyBody
                  (Some (VersionUpdateFailed next))
                  (Some (VersionUpdateSuccess next))];
             trace :=
               ((trace m ++ [HostChangeVersion (Some (version (hst m))) v])
                ++ [HostChangeVersion (Some v) next]
                ++ [Committed]
                ++ (if debug (this m)
                    then [Logged ("DATABASE VERSION UPDATE SUCCESS: " ++ v)]
                    else []))%list |})
    end.
    + rewrite H2. rewrite settle_idle by reflexivity.
      unfold getVersion. cbn [this hst pending trace _dbVersion version store].
      repeat split.
    + cbn [app with_version _db debug]. rewrite <- ?app_assoc. cbn [app]. reflexivity.
Qed.

End VersionCommits.

Lemma changeVersion_commits_witness :
  let m1 :=
    settle rejects_nothing Standalone 1
      (snd (changeVersion "0" (Some "2") (opened "1" true))) in
  let m2 :=
    settle rejects_nothing Standalone 2
      (snd (changeVersion "3" None
              (snd (changeVersion "0" (Some "2") (opened "1" true))))) in
  (getVersion m1 = Some "2" /\ version (hst m1) = "2"
   /\ store (hst m1) = [] /\ pending m1 = []
   /\ trace m1 =
      [HostChangeVersion (Some "1") "2"; Committed;
       Logged "DATABASE VERSION UPDATE SUCCESS: 2"])
  /\ (getVersion m2 = Some "3" /\ version (hst m2) = "3"
      /\ store (hst m2) = [] /\ pending m2 = []).
Proof.
  apply (@changeVersion_commits rejects_nothing Standalone "0" (Some "2") "3"
           (opened "1" true) 0); reflexivity.
Defined.

(** ** Without a connection *)

(** X19: an instance whose connection field is not set.  [query] and
    [queries] stop at their guard: the standalone build throws the
    lost-connection error, the Enyo build reports it and returns; in the Enyo
    build [setSchema] and [insertData] end the same way, through [queries].
    [close], [changeVersion] and [changeVersionWithSchema] have no guard and
    fail on the call of a method of the missing connection.  In every case
    nothing is handed to the host. *)
Theorem lost_connection_guard (sql_arg : query_arg) (qs : list query_arg)
  (schema : schema_arg) (dat : data_arg) (opts : options)
  (first : string) (second : option string) (m : machine) :
  _db (this m) = None ->
  query Standalone sql_arg opts m = (Throw (Error lost_message), m)
  /\ queries Standalone qs opts m = (Throw (Error lost_message), m)
  /\ query Enyo sql_arg opts m = (Normal tt, add_events [Logged lost_message] m)
  /\ queries Enyo qs opts m = (Normal tt, add_events [Logged lost_message] m)
  /\ setSchema Enyo schema opts m
     = (Normal tt, add_events [Logged lost_message] m)
  /\ insertData Enyo dat opts m
     = (Normal tt, add_events [Logged lost_message] m)
  /\ close m = (Throw (TypeError "this._db.close"), m)
  /\ changeVersion first second m
     = (Throw (TypeError "this._db.changeVersion"), m)
  /\ changeVersionWithSchema Enyo first schema opts m
     = (Throw (TypeError "this._db.changeVersion"), m).
Proof.
  intros Hdb.
  assert (Hq : forall b qs' opts',
    queries b qs' opts' m =
    match b with
    | Standalone => (Throw (Error lost_message), m)
    | Enyo => (Normal tt, add_events [Logged lost_message] m)
    end).
  { intros b qs' opts'. unfold queries, mbind, get_this. rewrite Hdb.
    now destruct b. }
  repeat split.
  - unfold query, mbind, get_this. now rewrite Hdb.
  - apply (Hq Standalone).
  - unfold query, mbind, get_this. now rewrite Hdb.
  - apply (Hq Enyo).
  - unfold setSchema, mbind at 1, lift. cbn [_isArray].
    destruct (fold_left setSchema_step _ _) as [tq d].
    destruct (0 <? List.length d)%nat; apply (Hq Enyo).
  - unfold insertData, mbind, lift. cbn [_isArray].
    rewrite insertData_loop_enyo. apply (Hq Enyo).
  - unfold close, mbind, get_this. now rewrite Hdb.
  - unfold changeVersion, mbind, get_this. now rewrite Hdb.
  - unfold changeVersionWithSchema, mbind, lift, get_this. cbn [_isArray].
    now rewrite Hdb.
Qed.

Lemma lost_connection_guard_witness :
  let m := {| this := {| _db := None; _dbVersion := None; debug := false |};
              hst := {| closed := true; version := "1"; store := [] |};
              pending := [];
              trace := [] |} in
  query Standalone (QString "SELECT 1") no_options m
    = (Throw (Error lost_message), m)
  /\ queries Standalone [] no_options m = (Throw (Error lost_message), m)
  /\ query Enyo (QString "SELECT 1") no_options m
     = (Normal tt, add_events [Logged lost_message] m)
  /\ queries Enyo [] no_options m
     = (Normal tt, add_events [Logged lost_message] m)
  /\ setSchema Enyo example_plan no_options m
     = (Normal tt, add_events [Logged lost_message] m)
  /\ insertData Enyo (DataArray []) no_options m
     = (Normal tt, add_events [Logged lost_message] m)
  /\ close m = (Throw (TypeError "this._db.close"), m)
  /\ changeVersion "2" None m
     = (Throw (TypeError "this._db.changeVersion"), m)
  /\ changeVersionWithSchema Enyo "2" example_plan no_options m
     = (Throw (TypeError "this._db.changeVersion"), m).
Proof.
  apply (@lost_connection_guard (QString "SELECT 1") [] example_plan
           (DataArray []) no_options "2" None
           {| this := {| _db := None; _dbVersion := None; debug := false |};
              hst := {| closed := true; version := "1"; store := [] |};
              pending := [];
              trace := [] |}).
  reflexivity.
Defined.

(** ** What no operation changes *)

Lemma same_handle_refl (m : machine) : same_handle m m.
Proof. now repeat split. Qed.

Lemma same_handle_trans (m1 m2 m3 : machine) :
  same_handle m1 m2 -> same_handle m2 m3 -> same_handle m1 m3.
Proof.
  intros (H1 & H2 & H3) (H4 & H5 & H6). repeat split.
  - now rewrite H4.
  - now rewrite H5.
  - auto.
Qed.

Lemma same_handle_events (m : machine) (evs : list event) :
  same_handle m (add_events evs m).
Proof. now repeat split. Qed.

Ltac same_handle_now :=
  unfold same_handle, emit, submit, set_this, set_host, throw, ret;
  cbn [fst snd this hst _db debug closed];
  repeat split; solve [reflexivity | intros; assumption | congruence].

Lemma queries_keeps (b : build) (qs : list query_arg) (opts : options)
  (m : machine) : same_handle m (snd (queries b qs opts m)).
Proof.
  unfold queries, mbind, get_this, _db_lost.
  destruct (_db (this m)), b; same_handle_now.
Qed.

Lemma query_keeps (b : build) (sql_arg : query_arg) (opts : options)
  (m : machine) : same_handle m (snd (query b sql_arg opts m)).
Proof.
  unfold query, mbind, get_this, _db_lost.
  destruct (_db (this m)), b, sql_arg; same_handle_now.
Qed.

Lemma setSchema_keeps (b : build) (schema : schema_arg) (opts : options)
  (m : machine) : same_handle m (snd (setSchema b schema opts m)).
Proof.
  destruct b; [apply same_handle_refl|].
  unfold setSchema, mbind at 1, lift. cbn [_isArray].
  destruct (fold_left setSchema_step _ _) as [tq d].
  destruct (0 <? List.length d)%nat; apply queries_keeps.
Qed.

Lemma insertData_keeps (b : build) (dat : data_arg) (opts : options)
  (m : machine) : same_handle m (snd (insertData b dat opts m)).
Proof.
  destruct b; [apply same_handle_refl|].
  unfold insertData, mbind, lift. cbn [_isArray].
  rewrite insertData_loop_enyo. apply queries_keeps.
Qed.

Lemma changeVersion_keeps (first : string) (second : option string)
  (m : machine) : same_handle m (snd (changeVersion first second m)).
Proof.
  unfold changeVersion, mbind, get_this.
  destruct (_db (this m)) eqn:E; same_handle_now.
Qed.

Lemma changeVersionWithSchema_keeps (b : build) (newVersion : string)
  (schema : schema_arg) (opts : options) (m : machine) :
  same_handle m (snd (changeVersionWithSchema b newVersion schema opts m)).
Proof.
  destruct b; [apply same_handle_refl|].
  unfold changeVersionWithSchema, mbind, lift, get_this. cbn [_isArray].
  destruct (_db (this m)); same_handle_now.
Qed.

Lemma close_keeps (m : machine) : same_handle m (snd (close m)).
Proof.
  unfold close, mbind, get_this, get_host.
  destruct (_db (this m)); same_handle_now.
Qed.

Lemma call_keeps (b : build) (cb : callback) (m : machine) :
  same_handle m (snd (call b cb m)).
Proof.
  revert m. induction cb; intros m; cbn [call].
  - same_handle_now.
  - same_handle_now.
  - same_handle_now.
  - apply IHcb.
  - apply insertData_keeps.
  - apply insertData_keeps.
  - unfold _versionChanged, mbind, get_this, set_this. cbn beta iota.
    eapply same_handle_trans; [|apply IHcb]. same_handle_now.
  - unfold _versionChanged, mbind, get_this, set_this, throw.
    same_handle_now.
  - unfold mbind, get_this. destruct (debug (this m)); same_handle_now.
  - unfold mbind, get_this. destruct (debug (this m)); same_handle_now.
Qed.

Section Invariant.

Variable rejects : list statement -> statement -> bool.

Lemma fire_keeps (b : build) (cb : option callback) (m : machine) :
  same_handle m (fire b cb m).
Proof.
  destruct cb as [f|]; [|apply same_handle_refl]. unfold fire.
  pose proof (call_keeps b f m) as H.
  destruct (call b f m) as [[u|e] m']; [exact H|].
  apply (same_handle_trans H), same_handle_events.
Qed.

Lemma run_requests_keeps (b : build) (reqs : list request)
  (work : list statement) (m : machine) :
  same_handle m (snd (run_requests rejects b reqs work m)).
Proof.
  revert work m. induction reqs as [|r rest IH]; intros work m;
    [apply same_handle_refl|].
  cbn [run_requests].
  destruct (rejects work (req_sql r, req_values r)).
  - apply (@same_handle_trans m
             (add_events [StatementFailed (req_sql r) (req_values r)] m));
      [apply same_handle_events|].
    destruct (req_onError r) as [cb|]; cbn [snd];
      [apply call_keeps | apply same_handle_refl].
  - apply (@same_handle_trans m
             (add_events [StatementDone (req_sql r) (req_values r)] m));
      [apply same_handle_events|].
    destruct (req_onSuccess r) as [cb|]; [|apply IH].
    pose proof (call_keeps b cb
                  (add_events [StatementDone (req_sql r) (req_values r)] m))
      as H.
    destruct (call b cb _) as [[u|e] m']; cbn [snd] in *; [|exact H].
    apply (same_handle_trans H), IH.
Qed.

Lemma fail_transaction_keeps (b : build) (ecb : option callback)
  (m : machine) : same_handle m (fail_transaction b ecb m).
Proof.
  unfold fail_transaction.
  apply (@same_handle_trans m (add_events [RolledBack] m));
    [apply same_handle_events | apply fire_keeps].
Qed.

Lemma run_transaction_keeps (b : build) (body : tx_callback)
  (newVersion : option string) (ecb scb : option callback) (m : machine) :
  same_handle m (run_transaction rejects b body newVersion ecb scb m).
Proof.
  unfold run_transaction.
  destruct (run_body b (this m) body) as [[evs reqs] thrown].
  apply (@same_handle_trans m (add_events evs m));
    [apply same_handle_events|].
  destruct thrown as [e|]; [apply fail_transaction_keeps|].
  pose proof (run_requests_keeps b reqs (store (hst (add_events evs m)))
                (add_events evs m)) as H.
  destruct (run_requests rejects b reqs _ _) as [[w|] m']; cbn [snd] in H.
  - apply (same_handle_trans H).
    eapply same_handle_trans; [|apply fire_keeps].
    same_handle_now.
  - apply (same_handle_trans H), fail_transaction_keeps.
Qed.

Lemma run_task_keeps (b : build) (t : task) (m : machine) :
  same_handle m (run_task rejects b t m).
Proof.
  destruct t as [body ecb|old new body ecb scb]; unfold run_task.
  - destruct (closed (hst m));
      [apply fail_transaction_keeps | apply run_transaction_keeps].
  - destruct (closed (hst m)); [apply fail_transaction_keeps|].
    destruct old as [v|]; [|apply fail_transaction_keeps].
    destruct (String.eqb v (version (hst m)));
      [apply run_transaction_keeps | apply fail_transaction_keeps].
Qed.

Lemma perform_keeps (b : build) (m : machine) (op : operation) :
  same_handle m (perform rejects b m op).
Proof.
  destruct op; cbn [perform].
  - apply query_keeps.
  - apply queries_keeps.
  - apply setSchema_keeps.
  - apply insertData_keeps.
  - apply changeVersion_keeps.
  - apply changeVersionWithSchema_keeps.
  - apply close_keeps.
  - unfold step. destruct (pending m) as [|t rest]; [apply same_handle_refl|].
    eapply same_handle_trans; [|apply run_task_keeps]. same_handle_now.
Qed.

Lemma session_keeps (b : build) (ops : list operation) (m : machine) :
  same_handle m (session rejects b ops m).
Proof.
  revert m. induction ops as [|op ops IH]; intros m;
    [apply same_handle_refl|].
  cbn [session fold_left].
  apply (same_handle_trans (perform_keeps b m op)), IH.
Qed.

(** X20: whatever the caller calls ([query], [queries], [setSchema],
    [insertData], the two version methods, [close]) and whatever the host
    runs in between, in any order and any number: the connection field is
    what it was (no method sets or clears it, [close] included), the debug
    flag is what it was, and a connection that was closed is still closed.
    So after [close] nothing opens the connection again, while the field
    that the guards test stays set. *)
Theorem session_keeps_handle (b : build) (ops : list operation) (m : machine) :
  _db (this m) = Some OpenedDatabase ->
  same_handle m (session rejects b ops m)
  /\ closed (hst (session rejects b (DoClose :: ops) m)) = true
  /\ _db (this (session rejects b (DoClose :: ops) m)) = Some OpenedDatabase.
Proof.
  intros Hdb. split; [apply session_keeps|].
  cbn [session fold_left perform]. rewrite (close_marks_host m Hdb). cbn [snd].
  match goal with
  | |- context [fold_left (perform rejects b) ops ?m1] =>
      destruct (session_keeps b ops m1) as (H1 & _ & H3)
  end.
  unfold session in *. split; [now apply H3 | now rewrite H1].
Qed.

(** X21: the constructor of the standalone build and what follows.  It
    throws when the name is not a string and when the host returns no
    connection.  Otherwise the cached version is the version the host
    reports, whatever version was asked for (['1'] when none was), and on the
    instance it returns the guard of [query] and [queries] never fires, after
    any series of operations: both return normally. *)
Theorem constructed_instance_keeps_connection
  (openDatabase : string -> string -> option host)
  (name ver : option string) (dbg : option bool) (m : machine)
  (ops : list operation) (sql_arg : query_arg) (qs : list query_arg)
  (opts : options) :
  Database_new openDatabase name ver dbg = Normal m ->
  (exists n, name = Some n
             /\ openDatabase n (match ver with Some v => v | None => "1" end)
                = Some (hst m))
  /\ getVersion m = Some (version (hst m))
  /\ pending m = []
  /\ (let m' := session rejects Standalone ops m in
      fst (query Standalone sql_arg opts m') = Normal tt
      /\ fst (queries Standalone qs opts m') = Normal tt).
Proof.
  intros Hnew. unfold Database_new in Hnew.
  destruct name as [n|]; [|discriminate].
  destruct (openDatabase n (match ver with Some v => v | None => "1" end))
    as [h|] eqn:Hopen; [|discriminate].
  injection Hnew as <-. cbn [hst this pending getVersion _dbVersion].
  split; [now exists n|]. split; [reflexivity|]. split; [reflexivity|].
  cbv zeta.
  match goal with
  | |- context [session rejects Standalone ops ?m0] =>
      destruct (session_keeps Standalone ops m0) as (Hdb & _ & _);
      set (m' := session rejects Standalone ops m0) in *
  end.
  cbn [this _db] in Hdb.
  rewrite (query_submits Standalone sql_arg opts m' Hdb).
  rewrite (queries_submits Standalone qs opts m' Hdb).
  now split.
Qed.

End Invariant.

Lemma session_keeps_handle_witness :
  let ops :=
    [DoQuery (QString "SELECT 1") caller_options; HostRuns;
     DoChangeVersion "2" None; HostRuns;
     DoSetSchema example_plan no_options; HostRuns; HostRuns] in
  same_handle (opened "1" true) (session rejects_nothing Enyo ops (opened "1" true))
  /\ closed (hst (session rejects_nothing Enyo (DoClose :: ops) (opened "1" true)))
     = true
  /\ _db (this (session rejects_nothing Enyo (DoClose :: ops) (opened "1" true)))
     = Some OpenedDatabase.
Proof.
  apply (@session_keeps_handle rejects_nothing Enyo
           [DoQuery (QString "SELECT 1") caller_options; HostRuns;
            DoChangeVersion "2" None; HostRuns;
            DoSetSchema example_plan no_options; HostRuns; HostRuns]
           (opened "1" true)).
  reflexivity.
Defined.

Lemma constructed_instance_keeps_connection_witness :
  let openDatabase :=
    fun (_ _ : string) =>
      Some {| closed := false; version := "3"; store := [] |} in
  let m := opened "3" false in
  (exists n, Some "ext:notes" = Some n
             /\ openDatabase n "1" = Some (hst m))
  /\ getVersion m = Some (version (hst m))
  /\ pending m = []
  /\ (let m' :=
        session rejects_nothing Standalone
          [DoClose; DoQuery (QString "SELECT 1") no_options; HostRuns] m in
      fst (query Standalone (QString "SELECT 2") no_options m') = Normal tt
      /\ fst (queries Standalone [] no_options m') = Normal tt).
Proof.
  apply (@constructed_instance_keeps_connection rejects_nothing
           (fun _ _ => Some {| closed := false; version := "3"; store := [] |})
           (Some "ext:notes") None None (opened "3" false)
           [DoClose; DoQuery (QString "SELECT 1") no_options; HostRuns]
           (QString "SELECT 2") [] no_options).
  reflexivity.
Defined.

(** ** Reading a schema or data from a URL *)

Lemma queries_enyo_returns (qs : list query_arg) (opts : options) (m : machine) :
  fst (queries Enyo qs opts m) = Normal tt.
Proof.
  unfold queries, mbind, get_this, _db_lost. now destruct (_db (this m)).
Qed.

Lemma setSchema_enyo_returns (schema : schema_arg) (opts : options)
  (m : machine) : fst (setSchema Enyo schema opts m) = Normal tt.
Proof.
  unfold setSchema, mbind at 1, lift. cbn [_isArray].
  destruct (fold_left setSchema_step _ _) as [tq d].
  destruct (0 <? List.length d)%nat; apply queries_enyo_returns.
Qed.

Lemma insertData_enyo_returns (dat : data_arg) (opts : options) (m : machine) :
  fst (insertData Enyo dat opts m) = Normal tt.
Proof.
  unfold insertData, mbind, lift. cbn [_isArray].
  rewrite insertData_loop_enyo. apply queries_enyo_returns.
Qed.

Lemma try_catch_returns (c : M unit) (handler : exn -> M unit) (m : machine) :
  fst (c m) = Normal tt -> try_catch c handler m = c m.
Proof.
  unfold try_catch. destruct (c m) as [[u|e] m']; [reflexivity | discriminate].
Qed.

(** X22: the loaders of the standalone build.  Once the request came back
    with a status that counts as a success, [setSchemaFromURL] and
    [insertDataFromURL] return normally and leave one line in the log,
    whatever the document is: the exception of the array test is caught by
    the [try] around the callback.  Nothing is handed to the host and no
    callback of the caller runs. *)
Theorem standalone_loaders_only_log (url : string)
  (schema_response : response schema_arg) (data_response : response data_arg)
  (opts : options) (m : machine) :
  accepted_status Standalone (status schema_response) = true ->
  accepted_status Standalone (status data_response) = true ->
  setSchemaFromURL Standalone url schema_response opts m
    = (Normal tt, add_events [Logged "JSON request error:"] m)
  /\ insertDataFromURL Standalone url data_response opts m
     = (Normal tt, add_events [Logged "JSON request error:"] m).
Proof.
  intros Hs Hd. split.
  - unfold setSchemaFromURL, _readURL. rewrite Hs.
    now destruct (parsed schema_response).
  - unfold insertDataFromURL, _readURL. rewrite Hd.
    now destruct (parsed data_response).
Qed.

Lemma standalone_loaders_only_log_witness :
  setSchemaFromURL Standalone "schema.json"
    {| status := 200; parsed := Some example_plan |} caller_options
    (opened "1" false)
    = (Normal tt, add_events [Logged "JSON request error:"] (opened "1" false))
  /\ insertDataFromURL Standalone "data.json"
       {| status := 0;
          parsed := Some (DataSingle
                            (mkTable "t" None
                               (Some (RowsObject [("id", SNum 1)])))) |}
       caller_options (opened "1" false)
     = (Normal tt, add_events [Logged "JSON request error:"] (opened "1" false)).
Proof.
  apply (@standalone_loaders_only_log "schema.json"
           {| status := 200; parsed := Some example_plan |}
           {| status := 0;
              parsed := Some (DataSingle
                                (mkTable "t" None
                                   (Some (RowsObject [("id", SNum 1)])))) |}
           caller_options (opened "1" false)); reflexivity.
Defined.

(** X23: the loaders of the Enyo build, once the request came back with
    status 200 or 0 and a document that parses.  [setSchemaFromUrl] and
    [insertDataFromUrl] are [setSchema] and [insertData] on the document,
    with the options of the caller.  [changeVersionWithSchemaFromUrl] is
    [changeVersionWithSchema] on the document without any options, whatever
    options it was given: the callbacks of the caller are not passed on; and
    without a connection the exception is caught and logged. *)
Theorem enyo_loaders (url : string) (newVersion : string)
  (schema_response : response schema_arg) (data_response : response data_arg)
  (schema : schema_arg) (dat : data_arg) (opts : options) (m : machine) :
  accepted_status Enyo (status schema_response) = true ->
  accepted_status Enyo (status data_response) = true ->
  parsed schema_response = Some schema ->
  parsed data_response = Some dat ->
  setSchemaFromURL Enyo url schema_response opts m = setSchema Enyo schema opts m
  /\ insertDataFromURL Enyo url data_response opts m
     = insertData Enyo dat opts m
  /\ changeVersionWithSchemaFromUrl newVersion url schema_response opts m
     = match _db (this m) with
       | Some _ => changeVersionWithSchema Enyo newVersion schema no_options m
       | None => (Normal tt, add_events [Logged "JSON request error:"] m)
       end.
Proof.
  intros Hs Hd Hps Hpd. repeat split.
  - unfold setSchemaFromURL, _readURL. rewrite Hs, Hps.
    apply try_catch_returns, setSchema_enyo_returns.
  - unfold insertDataFromURL, _readURL. rewrite Hd, Hpd.
    apply try_catch_returns, insertData_enyo_returns.
  - unfold changeVersionWithSchemaFromUrl, _readURL. rewrite Hs, Hps.
    destruct (_db (this m)) as [d|] eqn:Hdb.
    + apply try_catch_returns. destruct d.
      now rewrite (changeVersionWithSchema_enyo_submits _ _ _ m Hdb).
    + unfold try_catch, changeVersionWithSchema, mbind, lift, get_this.
      cbn [_isArray]. now rewrite Hdb.
Qed.

Lemma enyo_loaders_witness :
  let resp := {| status := 200; parsed := Some example_plan |} in
  let resp' := {| status := 0; parsed := Some (DataArray []) |} in
  setSchemaFromURL Enyo "schema.json" resp caller_options (opened "1" false)
    = setSchema Enyo example_plan caller_options (opened "1" false)
  /\ insertDataFromURL Enyo "data.json" resp' caller_options (opened "1" false)
     = insertData Enyo (DataArray []) caller_options (opened "1" false)
  /\ changeVersionWithSchemaFromUrl "2" "schema.json" resp caller_options
       (opened "1" false)
     = changeVersionWithSchema Enyo "2" example_plan no_options
         (opened "1" false).
Proof.
  cbv zeta.
  destruct (@enyo_loaders "schema.json" "2"
              {| status := 200; parsed := Some example_plan |}
              {| status := 0; parsed := Some (DataArray []) |}
              example_plan (DataArray []) caller_options (opened "1" false)
              eq_refl eq_refl eq_refl eq_refl) as (H1 & H2 & H3).
  split; [exact H1|]. split; [exact H2 | exact H3].
Defined.

(** X24: a request that fails, or a text that does not parse: the loaders
    submit nothing and call no callback of the caller, in either build.  On
    a status that counts as a failure the standalone build throws from the
    handler of the request, and the Enyo build logs; on a text that does not
    parse both log. *)
Theorem loaders_on_failure (b : build) (url : string)
  (resp : response schema_arg) (opts : options) (m : machine) :
  accepted_status b (status resp) = false \/ parsed resp = None ->
  setSchemaFromURL b url resp opts m =
  if accepted_status b (status resp) then
    (Normal tt, add_events [Logged "JSON request error:"] m)
  else
    match b with
    | Standalone => (Throw (Error (read_failure url)), m)
    | Enyo => (Normal tt, add_events [Logged (read_failure url)] m)
    end.
Proof.
  intros H. unfold setSchemaFromURL, _readURL.
  destruct (accepted_status b (status resp)).
  - destruct H as [H|H]; [discriminate|]. now rewrite H.
  - now destruct b.
Qed.

Lemma loaders_on_failure_witness :
  setSchemaFromURL Standalone "schema.json"
    {| status := 404; parsed := Some example_plan |} caller_options
    (opened "1" false)
  = (Throw (Error "Database: failed to read JSON at URL `schema.json`"),
     opened "1" false).
Proof.
  apply (@loaders_on_failure Standalone "schema.json"
           {| status := 404; parsed := Some example_plan |} caller_options
           (opened "1" false)).
  left. reflexivity.
Defined.

(** ** Merging options *)

Lemma get_set_same (A : Type) (name : string) (v : A) (o : object A) :
  get_property name (set_property name v o) = Some v.
Proof.
  induction o as [|[k w] rest IH]; cbn [set_property get_property].
  - now rewrite String.eqb_refl.
  - destruct (String.eqb k name) eqn:E; cbn [get_property]; rewrite E;
      [reflexivity | exact IH].
Qed.

Lemma get_set_other (A : Type) (name k : string) (v : A) (o : object A) :
  String.eqb k name = false ->
  get_property name (set_property k v o) = get_property name o.
Proof.
  intros Hk. induction o as [|[k' w] rest IH]; cbn [set_property get_property].
  - now rewrite Hk.
  - destruct (String.eqb k' k) eqn:E; cbn [get_property].
    + apply String.eqb_eq in E. subst k'. now rewrite Hk.
    + now rewrite IH.
Qed.

Lemma get_missing (A : Type) (name : string) (o : object A) :
  has_property name o = false -> get_property name o = None.
Proof.
  induction o as [|[k w] rest IH]; [reflexivity|].
  cbn [has_property get_property]. intros H.
  apply orb_false_iff in H. destruct H as [Hk Hr]. rewrite Hk. now apply IH.
Qed.

Lemma mixin_loop (A : Type) (name : string) (source target : object A) :
  distinct_keys source = true ->
  get_property name
    (fold_left (fun t entry => set_property (fst entry) (snd entry) t)
       source target)
  = match get_property name source with
    | Some v => Some v
    | None => get_property name target
    end.
Proof.
  revert target. induction source as [|[k v] rest IH]; intros target Hd;
    [reflexivity|].
  cbn [distinct_keys] in Hd. apply andb_prop in Hd. destruct Hd as [Hk Hr].
  apply negb_true_iff in Hk.
  cbn [fold_left fst snd get_property]. rewrite (IH _ Hr).
  destruct (String.eqb k name) eqn:E.
  - apply String.eqb_eq in E. subst name.
    now rewrite (@get_missing A k rest Hk), get_set_same.
  - rewrite (@get_set_other A name k v target E). reflexivity.
Qed.

(** X25: [_mixin]: after the merge a property reads as in the source when
    the source has it, and as in the target when not; a target or a source
    that is missing counts as an object without properties. *)
Theorem mixin_lookup (A : Type) (name : string)
  (target : option (object A)) (source : object A) :
  distinct_keys source = true ->
  get_property name (_mixin target (Some source))
  = match get_property name source with
    | Some v => Some v
    | None =>
        get_property name (match target with Some t => t | None => [] end)
    end
  /\ _mixin target None = match target with Some t => t | None => [] end.
Proof.
  intros Hd. split; [|reflexivity]. unfold _mixin. now apply mixin_loop.
Qed.

Lemma mixin_lookup_witness :
  get_property "b"
    (_mixin (Some [("a", 1%Z); ("b", 2%Z)]) (Some [("b", 3%Z); ("c", 4%Z)]))
  = Some 3%Z
  /\ _mixin (Some [("a", 1%Z); ("b", 2%Z)]) None = [("a", 1%Z); ("b", 2%Z)].
Proof.
  apply (@mixin_lookup Z "b" (Some [("a", 1%Z); ("b", 2%Z)])
           [("b", 3%Z); ("c", 4%Z)]).
  reflexivity.
Defined.

(** X26: [_getOptions] on the objects themselves gives what the record the
    methods work with says: after the merge [onSuccess] and [onError] are
    always there, those of the caller when given, else the empty function
    and the error handler of the class; [values] is that of the caller when
    given, else the extra default, else missing.  Options that were not
    passed count as an empty object. *)
Theorem getOptions_object_agrees (o : options) (extra : option (list scalar)) :
  let merged_object :=
    _getOptions_object (Some (options_object o)) (extra_object extra) in
  get_property "onSuccess" merged_object
    = Some (OFunction (onSuccess (_getOptions o extra)))
  /\ get_property "onError" merged_object
     = Some (OFunction (onError (_getOptions o extra)))
  /\ get_property "values" merged_object
     = option_map OValues (values_of (_getOptions o extra))
  /\ _getOptions_object None (extra_object extra)
     = _getOptions_object (Some (options_object no_options)) (extra_object extra).
Proof.
  destruct o as [[v|] [s|] [e|]], extra as [x|]; repeat split.
Qed.

(** ** Result sets *)

Lemma convert_loop_closed (A : Type) (rows : row_list A) (todo i : nat)
  (results : list A) :
  convert_loop rows todo i results
  = (results ++ map (rows_item rows) (seq i todo))%list.
Proof.
  revert i results. induction todo as [|todo IH]; intros i results.
  - cbn. now rewrite app_nil_r.
  - cbn [convert_loop seq map]. rewrite IH, <- app_assoc. reflexivity.
Qed.

(** X27: [_convertResultSet] returns the rows of the result set in their
    order: exactly [rows.length] of them (none when the length is 0), the
    one at index [i] being [rows.item(i)] and nothing at or beyond the
    length; and the empty array when there is no [rows]. *)
Theorem convertResultSet_items (A : Type) (r : row_list A) :
  _convertResultSet (Some r) = map (rows_item r) (seq 0 (rows_length r))
  /\ List.length (_convertResultSet (Some r)) = rows_length r
  /\ (forall i : nat,
        nth_error (_convertResultSet (Some r)) i
        = if (i <? rows_length r)%nat then Some (rows_item r i) else None)
  /\ _convertResultSet (@None (row_list A)) = [].
Proof.
  unfold _convertResultSet.
  rewrite convert_loop_closed, app_nil_l. repeat split.
  - now rewrite length_map, length_seq.
  - intros i. rewrite nth_error_map, nth_error_seq.
    now destruct (i <? rows_length r)%nat.
Qed.
